(** * Agent dashboard: worker lifecycle, queue processing and liveness

    A shallow embedding of [app.py].  The script keeps six dictionaries in
    the Streamlit session state (status, logs, last heartbeat, thread
    handle, queue and progress, each keyed by the agent's name), reacts to
    the Start / Stop / Submit buttons on every run, and starts one
    [agent_worker] thread per Start.

    What the model fixes:
    - the session state is one store, shared by the script and by the
      worker threads, as the code uses it;
    - a dictionary is a finite map; reading a missing key raises
      [KeyError], which ends the run of the script or kills the thread;
    - the worker is executed one statement at a time, the handling of the
      buttons in one run of the script is one step, and steps of the
      script and of the workers interleave in any order;
    - [datetime.now()] reads the next value of a clock given in advance,
      and [time.sleep] only counts as time that passes;
    - progress is a rational number: [step / task_steps] is the float
      nearest to it, and 0 and 1 are floats;
    - the display at the end of the script (lines 173-195) is one step
      as well, [display]; the rerun of lines 197-200 only brings the next
      run of the script. *)

From Stdlib Require Import ZArith QArith String Ascii List Lia.
From stdpp Require Import base option gmap strings list fin_maps pretty.

Local Open Scope Z_scope.

(** ** Time: [datetime], [strftime] and [strptime]

    A naive [datetime.datetime] with the fields Python gives it. *)

Record datetime := {
  year : Z; month : Z; day : Z;
  hour : Z; minute : Z; second : Z; microsecond : Z
}.

(** The proleptic Gregorian ordinal of a date, as [datetime.toordinal]. *)

Definition is_leap (y : Z) : bool :=
  (y mod 4 =? 0) && (negb (y mod 100 =? 0) || (y mod 400 =? 0)).

Definition days_before_year (y : Z) : Z :=
  let y' := y - 1 in y' * 365 + y' / 4 - y' / 100 + y' / 400.

Definition days_in_month (y m : Z) : Z :=
  if m =? 2 then (if is_leap y then 29 else 28)
  else if (m =? 4) || (m =? 6) || (m =? 9) || (m =? 11) then 30
  else 31.

Definition days_before_month (y m : Z) : Z :=
  nth (Z.to_nat m) [0; 0; 31; 59; 90; 120; 151; 181; 212; 243; 273; 304; 334] 0
  + (if (2 <? m) && is_leap y then 1 else 0).

Definition toordinal (t : datetime) : Z :=
  days_before_year (year t) + days_before_month (year t) (month t) + day t.

(** The arguments the [datetime] constructor accepts. *)

Definition valid_datetime (t : datetime) : Prop :=
  1 <= year t <= 9999 /\ 1 <= month t <= 12 /\
  1 <= day t <= days_in_month (year t) (month t) /\
  0 <= hour t < 24 /\ 0 <= minute t < 60 /\ 0 <= second t < 60 /\
  0 <= microsecond t < 1000000.

(** [(a - b).total_seconds()], kept exact in microseconds.  Python returns
    the float nearest to this number divided by 10^6; the comparisons made
    on it below are against 1 and 2, which the microsecond count decides
    exactly. *)

Definition seconds_of_day (t : datetime) : Z :=
  second t + minute t * 60 + hour t * 3600.

Definition total_microseconds (a b : datetime) : Z :=
  ((toordinal a - toordinal b) * 86400
   + (seconds_of_day a - seconds_of_day b)) * 1000000
  + (microsecond a - microsecond b).

(** [t.strftime("%H:%M:%S")]: three zero-padded two-digit fields. *)

Definition digit_char (d : Z) : ascii := ascii_of_nat (48 + Z.to_nat d).

Definition pad2 (n : Z) : string :=
  String (digit_char (n / 10)) (String (digit_char (n mod 10)) EmptyString).

Definition strftime_HMS (t : datetime) : string :=
  pad2 (hour t) +:+ ":" +:+ pad2 (minute t) +:+ ":" +:+ pad2 (second t).

(** [datetime.strptime(s, "%H:%M:%S")].  Each directive reads two digits
    when they form a number within its bound and one digit otherwise
    ([%H]: 23, [%M]: 59, [%S]: 61), the colons are literal and the whole
    text must be consumed.  The date is not part of the format, so the
    result is on 1900-01-01.  [None] is the [ValueError] Python raises;
    a second field of 60 or 61 passes the pattern but is refused by the
    [datetime] constructor.  Texts are ASCII, as [strftime_HMS] writes
    them. *)

Definition digit_val (c : ascii) : option Z :=
  let n := Z.of_nat (nat_of_ascii c) in
  if (48 <=? n) && (n <=? 57) then Some (n - 48) else None.

Definition read_field (bound : Z) (s : string) : option (Z * string) :=
  match s with
  | EmptyString => None
  | String c1 rest1 =>
      match digit_val c1 with
      | None => None
      | Some d1 =>
          match rest1 with
          | String c2 rest2 =>
              match digit_val c2 with
              | Some d2 =>
                  if 10 * d1 + d2 <=? bound then Some (10 * d1 + d2, rest2)
                  else Some (d1, rest1)
              | None => Some (d1, rest1)
              end
          | EmptyString => Some (d1, rest1)
          end
      end
  end.

Definition read_colon (s : string) : option string :=
  match s with
  | String c rest => if Ascii.eqb c ":"%char then Some rest else None
  | EmptyString => None
  end.

Definition strptime_HMS (s : string) : option datetime :=
  '(h, s1) ← read_field 23 s;
  s2 ← read_colon s1;
  '(m, s3) ← read_field 59 s2;
  s4 ← read_colon s3;
  '(sec, s5) ← read_field 61 s4;
  if negb (String.eqb s5 "") then None
  else if 59 <? sec then None
  else Some {| year := 1900; month := 1; day := 1;
               hour := h; minute := m; second := sec; microsecond := 0 |}.

(** ** Tasks

    A task is the callable the worker invokes as [task(step, total_steps)]:
    it returns a display text or raises.  [Raises e] carries [str(e)] of an
    exception of class [Exception], the class the worker catches. *)

Inductive outcome :=
  | Returns (result : string)
  | Raises (e : string).

Definition task : Type := nat → nat → outcome.

(** [make_task]: the closure the submit handler enqueues.  The content is
    always text there, so the 50-character cut of a byte blob never
    applies, and the closure never raises. *)

Definition make_task (task_type content : string) : task :=
  λ step total_steps,
    Returns (task_type +:+ ": " +:+ content +:+ "... step "
             +:+ pretty step +:+ "/" +:+ pretty total_steps).

Definition task_steps : nat := 20.

(** ** Session state, threads and the interpreter's state *)

Inductive exn :=
  | KeyError (key : string)
  | ValueError.

(** The statement a worker thread executes next.  Line numbers are those
    of [agent_worker] in [app.py]. *)

Inductive pc :=
  | Created                            (* Thread object built, not started *)
  | AtWhile                            (* 39: test of the loop condition *)
  | AtGet                              (* 41: queue.get(timeout=1) *)
  | AtIdleBeat                         (* 43: heartbeat after Empty *)
  | AtIdleSleep                        (* 44: time.sleep(0.5); continue *)
  | AtCall (t : task) (step : nat)     (* 51: task(step, task_steps) *)
  | AtProgress (t : task) (step : nat) (* 52: progress = step / task_steps *)
  | AtBeat (t : task) (step : nat)     (* 53: heartbeat of the step *)
  | AtPause (t : task) (step : nat)    (* 54: time.sleep(0.1), next step *)
  | AtFailLog (e : string)             (* 56: log "Task failed" *)
  | AtFailReset                        (* 59: progress = 0.0; break *)
  | AtDoneLog                          (* 62: log "Task completed" *)
  | AtDoneReset                        (* 65: progress = 0.0 *)
  | Exited                             (* loop condition was false *)
  | Crashed (e : exn).                 (* an exception left the function *)

Record thread := { th_agent : string; th_pc : pc }.

Record session_state := {
  agent_status : gmap string string;
  agent_logs : gmap string (list string);
  last_heartbeat : gmap string (option string);
  agent_threads : gmap string nat;
  agent_queues : gmap string (list task);
  agent_progress : gmap string Q
}.

(** [clock] lists the readings [datetime.now()] will give, [ticks] counts
    the readings taken so far; [pool] holds every thread ever created, a
    thread handle being its index. *)

Record system := {
  session : session_state;
  pool : list thread;
  clock : nat → datetime;
  ticks : nat
}.

Definition with_status (f : gmap string string → gmap string string)
    (ss : session_state) : session_state :=
  {| agent_status := f (agent_status ss); agent_logs := agent_logs ss;
     last_heartbeat := last_heartbeat ss; agent_threads := agent_threads ss;
     agent_queues := agent_queues ss; agent_progress := agent_progress ss |}.

Definition with_logs (f : gmap string (list string) → gmap string (list string))
    (ss : session_state) : session_state :=
  {| agent_status := agent_status ss; agent_logs := f (agent_logs ss);
     last_heartbeat := last_heartbeat ss; agent_threads := agent_threads ss;
     agent_queues := agent_queues ss; agent_progress := agent_progress ss |}.

Definition with_heartbeat
    (f : gmap string (option string) → gmap string (option string))
    (ss : session_state) : session_state :=
  {| agent_status := agent_status ss; agent_logs := agent_logs ss;
     last_heartbeat := f (last_heartbeat ss); agent_threads := agent_threads ss;
     agent_queues := agent_queues ss; agent_progress := agent_progress ss |}.

Definition with_threads (f : gmap string nat → gmap string nat)
    (ss : session_state) : session_state :=
  {| agent_status := agent_status ss; agent_logs := agent_logs ss;
     last_heartbeat := last_heartbeat ss; agent_threads := f (agent_threads ss);
     agent_queues := agent_queues ss; agent_progress := agent_progress ss |}.

Definition with_queues (f : gmap string (list task) → gmap string (list task))
    (ss : session_state) : session_state :=
  {| agent_status := agent_status ss; agent_logs := agent_logs ss;
     last_heartbeat := last_heartbeat ss; agent_threads := agent_threads ss;
     agent_queues := f (agent_queues ss); agent_progress := agent_progress ss |}.

Definition with_progress (f : gmap string Q → gmap string Q)
    (ss : session_state) : session_state :=
  {| agent_status := agent_status ss; agent_logs := agent_logs ss;
     last_heartbeat := last_heartbeat ss; agent_threads := agent_threads ss;
     agent_queues := agent_queues ss; agent_progress := f (agent_progress ss) |}.

Definition with_session (f : session_state → session_state) (s : system) : system :=
  {| session := f (session s); pool := pool s; clock := clock s; ticks := ticks s |}.

Definition with_pool (f : list thread → list thread) (s : system) : system :=
  {| session := session s; pool := f (pool s); clock := clock s; ticks := ticks s |}.

(** ** A state-and-exception monad for Python statements

    A statement either completes with a value or raises; in both cases the
    state reached so far is kept, since an exception undoes nothing. *)

Inductive result (A : Type) :=
  | Done (a : A) (s : system)
  | Throw (e : exn) (s : system).
Arguments Done {A} a s.
Arguments Throw {A} e s.

Definition M (A : Type) : Type := system → result A.

#[global] Instance M_ret : MRet M := λ A a s, Done a s.
#[global] Instance M_bind : MBind M := λ A B f m s,
  match m s with
  | Done a s' => f a s'
  | Throw e s' => Throw e s'
  end.

Definition state_of {A} (r : result A) : system :=
  match r with Done _ s | Throw _ s => s end.

Definition raise {A} (e : exn) : M A := λ s, Throw e s.
Definition gets {A} (f : session_state → A) : M A := λ s, Done (f (session s)) s.
Definition modify (f : session_state → session_state) : M unit :=
  λ s, Done () (with_session f s).

(** [d[k]] read from one of the session dictionaries. *)
Definition getitem {V} (d : session_state → gmap string V) (k : string) : M V :=
  m ← gets d;
  match m !! k with
  | Some v => mret v
  | None => raise (KeyError k)
  end.

(** [datetime.now()]: the next reading of the clock. *)
Definition tick (s : system) : system :=
  {| session := session s; pool := pool s; clock := clock s; ticks := S (ticks s) |}.

Definition datetime_now : M datetime := λ s, Done (clock s (ticks s)) (tick s).

(** [threading.Thread(target=agent_worker, args=(agent,), daemon=True)]
    and [thread.start()]. *)
Definition new_thread (agent_name : string) : M nat :=
  λ s, Done (length (pool s))
            (with_pool (λ p, p ++ [{| th_agent := agent_name; th_pc := Created |}]) s).

Definition set_pc (tid : nat) (p : pc) (s : system) : system :=
  with_pool (λ ths,
    match ths !! tid with
    | Some th => <[tid := {| th_agent := th_agent th; th_pc := p |}]> ths
    | None => ths
    end) s.

Definition start_thread (tid : nat) : M unit :=
  λ s, Done () (set_pc tid AtWhile s).

(** [logs[agent].append(f"[{now:%H:%M:%S}] {text}")]: the list is looked
    up before the clock is read. *)
Definition log_now (agent_name text : string) : M unit :=
  l ← getitem agent_logs agent_name;
  now ← datetime_now;
  modify (with_logs <[agent_name := l ++ ["[" +:+ strftime_HMS now +:+ "] " +:+ text]]>).

(** ** [agent_worker], one statement at a time

    [worker_step a p] runs the statement at [p] of the worker bound to
    agent [a] and returns the statement that follows.  [queue.get] is
    taken when the thread is scheduled: with a task waiting it dequeues
    the head, with none it is the [Empty] of the timeout. *)

Definition worker_step (agent_name : string) (p : pc) : M pc :=
  match p with
  | AtWhile =>
      status ← getitem agent_status agent_name;
      mret (if decide (status = "running") then AtGet else Exited)
  | AtGet =>
      q ← getitem agent_queues agent_name;
      match q with
      | t :: q' => modify (with_queues <[agent_name := q']>);; mret (AtCall t 1)
      | [] => mret AtIdleBeat
      end
  | AtIdleBeat =>
      now ← datetime_now;
      modify (with_heartbeat <[agent_name := Some (strftime_HMS now)]>);;
      mret AtIdleSleep
  | AtIdleSleep => mret AtWhile
  | AtCall t step =>
      match t step task_steps with
      | Returns _ => mret (AtProgress t step)
      | Raises e => mret (AtFailLog e)
      end
  | AtProgress t step =>
      modify (with_progress
                <[agent_name := Qmake (Z.of_nat step) (Pos.of_nat task_steps)]>);;
      mret (AtBeat t step)
  | AtBeat t step =>
      now ← datetime_now;
      modify (with_heartbeat <[agent_name := Some (strftime_HMS now)]>);;
      mret (AtPause t step)
  | AtPause t step =>
      mret (if decide (step < task_steps)%nat then AtCall t (S step) else AtDoneLog)
  | AtFailLog e =>
      log_now agent_name ("Task failed: " +:+ e);; mret AtFailReset
  | AtFailReset =>
      modify (with_progress <[agent_name := 0%Q]>);; mret AtWhile
  | AtDoneLog =>
      log_now agent_name "Task completed successfully";; mret AtDoneReset
  | AtDoneReset =>
      modify (with_progress <[agent_name := 0%Q]>);; mret AtWhile
  | Created | Exited | Crashed _ => mret p
  end.


(** ** The control script

    What the sidebar widgets hold when the script runs.  [text_area] is
    the content of the text box, [file_uploader] the text of the uploaded
    document if there is one (reading and decoding it is the uploader's
    business). *)

Record widgets := {
  selected_agent : string;
  start_clicked : bool;
  stop_clicked : bool;
  task_type : string;
  text_area : string;
  file_uploader : option string;
  submit_task : bool
}.

Definition agents : list string := ["Listener"; "Planner"; "Executor"].

Definition text_functions : list string :=
  ["Translate Text"; "Summarize Text"; "Spellcheck Text"].

(** Lines 112-119: each input exists only for its kind of function. *)
Definition task_input (w : widgets) : option string :=
  if bool_decide (task_type w ∈ text_functions) then Some (text_area w) else None.

Definition uploaded_file (w : widgets) : option string :=
  if bool_decide (task_type w = "Translate Document") then file_uploader w else None.

(** [str.strip()]: the characters [str.isspace] accepts, for code points
    below 256. *)
Definition py_isspace (c : ascii) : bool :=
  let n := nat_of_ascii c in
  ((9 <=? n) && (n <=? 13) || (28 <=? n) && (n <=? 32) || (n =? 133) || (n =? 160))%nat.

Fixpoint lstrip (s : string) : string :=
  match s with
  | String c rest => if py_isspace c then lstrip rest else s
  | EmptyString => EmptyString
  end.

Definition strip (s : string) : string :=
  String.rev (lstrip (String.rev (lstrip s))).


(** Truth value of a text or [None], and of an uploaded file: the file
    object is true whatever it contains. *)
Definition truthy (o : option string) : bool :=
  match o with
  | Some s => negb (String.eqb s "")
  | None => false
  end.

(** Line 151: [(task_input and task_input.strip()) or uploaded_file]. *)
Definition submission_accepted (w : widgets) : bool :=
  (truthy (task_input w) && truthy (strip <$> task_input w))
  || bool_decide (is_Some (uploaded_file w)).

(** Lines 128-140. *)
Definition handle_start (selected : string) (timestamp : string) : M unit :=
  status ← getitem agent_status selected;
  if decide (status ≠ "running") then
    modify (with_status <[selected := "running"]>);;
    l ← getitem agent_logs selected;
    modify (with_logs <[selected := l ++ ["[" +:+ timestamp +:+ "] Agent started"]]>);;
    th ← new_thread selected;
    modify (with_threads <[selected := th]>);;
    start_thread th
  else mret ().

(** Lines 142-147. *)
Definition handle_stop (selected : string) (timestamp : string) : M unit :=
  status ← getitem agent_status selected;
  if decide (status = "running") then
    modify (with_status <[selected := "stopped"]>);;
    l ← getitem agent_logs selected;
    modify (with_logs <[selected := l ++ ["[" +:+ timestamp +:+ "] Agent stopped"]]>)
  else mret ().

(** Lines 150-171.  When no file was uploaded the guard has made sure the
    text input is there. *)
Definition handle_submit (w : widgets) : M unit :=
  if submission_accepted w then
    let content :=
      match uploaded_file w with
      | Some file_content => file_content
      | None => default "" (task_input w)
      end in
    q ← getitem agent_queues (selected_agent w);
    modify (with_queues <[selected_agent w := q ++ [make_task (task_type w) content]]>);;
    log_now (selected_agent w) ("Task queued: " +:+ task_type w)
  else mret ().

(** One run of the script, lines 126-171: the timestamp is taken once,
    then the three buttons are handled in this order. *)
Definition script_run (w : widgets) : M unit :=
  now ← datetime_now;
  let timestamp := strftime_HMS now in
  (if start_clicked w then handle_start (selected_agent w) timestamp else mret ());;
  (if stop_clicked w then handle_stop (selected_agent w) timestamp else mret ());;
  (if submit_task w then handle_submit w else mret ()).

(** ** [heartbeat_status]

    The four emoji the function returns: U+1F49A, U+1F49B, U+1F7E1 and
    U+1F534. *)

Inductive emoji := green_heart | yellow_heart | yellow_circle | red_circle.

Definition heartbeat_status (agent_name : string) : M emoji :=
  last_seen ← gets (λ ss, mjoin (last_heartbeat ss !! agent_name));
  status ← gets (λ ss, default "idle" (agent_status ss !! agent_name));
  if decide (status = "running") then
    if truthy last_seen then
      match strptime_HMS (default "" last_seen) with
      | None => raise ValueError
      | Some last_time =>
          now ← datetime_now;
          let delta := total_microseconds now last_time in
          if delta <=? 1000000 then mret green_heart
          else if delta <=? 2000000 then mret yellow_heart
          else mret yellow_circle
      end
    else mret green_heart
  else if decide (status = "stopped") then mret red_circle
  else mret yellow_circle.

(** ** The whole system

    An event is one run of the script or one statement of a thread.  A
    run of the script that raises keeps what it did until then; a worker
    whose statement raises is dead. *)

Inductive event :=
  | RunScript (w : widgets)
  | Sched (tid : nat).

Definition sys_step (e : event) (s : system) : system :=
  match e with
  | RunScript w => state_of (script_run w s)
  | Sched tid =>
      match pool s !! tid with
      | Some th =>
          match worker_step (th_agent th) (th_pc th) s with
          | Done p' s' => set_pc tid p' s'
          | Throw e s' => set_pc tid (Crashed e) s'
          end
      | None => s
      end
  end.

Definition exec (evs : list event) (s : system) : system :=
  foldl (λ s e, sys_step e s) s evs.


(** Lines 15-33: the session state of a fresh session. *)
Definition for_agents {V} (v : V) : gmap string V :=
  list_to_map ((λ a, (a, v)) <$> agents).

Definition init_session : session_state :=
  {| agent_status := for_agents "idle";
     agent_logs := for_agents [];
     last_heartbeat := for_agents None;
     agent_threads := ∅;
     agent_queues := for_agents [];
     agent_progress := for_agents 0%Q |}.

Definition init (clk : nat → datetime) : system :=
  {| session := init_session; pool := []; clock := clk; ticks := 0 |}.

(** ** Observations *)

Definition status_of (s : system) (a : string) : option string :=
  agent_status (session s) !! a.
Definition logs_of (s : system) (a : string) : option (list string) :=
  agent_logs (session s) !! a.
Definition heartbeat_of (s : system) (a : string) : option (option string) :=
  last_heartbeat (session s) !! a.
Definition queue_of (s : system) (a : string) : option (list task) :=
  agent_queues (session s) !! a.
Definition progress_of (s : system) (a : string) : option Q :=
  agent_progress (session s) !! a.
Definition pc_of (s : system) (tid : nat) : option pc :=
  th_pc <$> pool s !! tid.

(** A thread that still executes statements of [agent_worker]. *)
Definition alive (p : pc) : bool :=
  match p with
  | Created | Exited | Crashed _ => false
  | _ => true
  end.

Definition active_workers (s : system) (a : string) : nat :=
  length (filter (λ th, th_agent th = a ∧ alive (th_pc th) = true) (pool s)).

(** ** The liveness table of the specification

    Section 4.4 of the specification, in its own words: a function of the
    status, the time elapsed since the last heartbeat (absent when there
    is none) and six labels. *)

Inductive liveness :=
  | Healthy | Degraded | Stale | Dead | Unknown | FreshOptimistic.

Definition classifyLiveness (status : string) (elapsed : option Z) : liveness :=
  if decide (status = "stopped") then Dead
  else if decide (status ≠ "running") then Unknown
  else match elapsed with
       | None => FreshOptimistic
       | Some d =>
           if d <=? 1000000 then Healthy
           else if d <=? 2000000 then Degraded
           else Stale
       end.

(** The claim read on the code: some rendering of the six labels by
    distinct values makes [heartbeat_status] agree with the table, the
    elapsed time being counted from the moment [hb] the heartbeat was
    taken to the reading of the clock. *)


(** What the code shows for each label. *)

Definition render (l : liveness) : emoji :=
  match l with
  | Healthy | FreshOptimistic => green_heart
  | Degraded => yellow_heart
  | Stale | Unknown => yellow_circle
  | Dead => red_circle
  end.

(** The moment [strptime_HMS] reads back from the text of [t]. *)

Definition on_1900 (t : datetime) : datetime :=
  {| year := 1900; month := 1; day := 1;
     hour := hour t; minute := minute t; second := second t; microsecond := 0 |}.

(** ** The outcome of a task

    The first step among [step], [step + 1], ... ([n] of them) at which
    the task raises, with the text of the exception; the terminal log
    text of a task started at step 1; and a terminal entry with the time
    of some reading of the clock. *)





(** The task a submission puts on the queue (lines 161-167). *)
Definition submitted_task (w : widgets) : task :=
  make_task (task_type w)
    (match uploaded_file w with
     | Some file_content => file_content
     | None => default "" (task_input w)
     end).


(** ** Invariants of the reachable states

    The step counters of the threads stay within [1, task_steps]; every
    agent that has a status has a log and a queue, and every thread is
    bound to such an agent. *)

Definition pc_in_range (p : pc) : Prop :=
  match p with
  | AtCall _ i | AtProgress _ i | AtBeat _ i | AtPause _ i => (1 ≤ i ≤ task_steps)%nat
  | _ => True
  end.

Definition progress_in_range (s : system) : Prop :=
  ∀ (a : string) (p : Q), progress_of s a = Some p → (0 <= p <= 1)%Q.

Definition keys_present (s : system) : Prop :=
  (∀ a, is_Some (status_of s a) → is_Some (logs_of s a) ∧ is_Some (queue_of s a))
  ∧ (∀ tid th, pool s !! tid = Some th → is_Some (status_of s (th_agent th))).

Definition threads_in_range (s : system) : Prop :=
  ∀ tid th, pool s !! tid = Some th → pc_in_range (th_pc th).

Definition invariant (s : system) : Prop :=
  progress_in_range s ∧ threads_in_range s ∧ keys_present s.


(** ** Heartbeats over time

    The time of day, in seconds, that a stored heartbeat stands for; a
    clock whose readings never go back; the claim that no event makes
    the heartbeat of an agent go back; and a clock whose readings all
    fall on one day. *)


Definition clock_monotone (clk : nat → datetime) : Prop :=
  (∀ i, valid_datetime (clk i))
  ∧ ∀ i j, (i ≤ j)%nat → 0 <= total_microseconds (clk j) (clk i).


Definition one_day_clock (clk : nat → datetime) : Prop :=
  clock_monotone clk ∧ ∀ i j, toordinal (clk i) = toordinal (clk j).

(** Every heartbeat in the session is the text of an earlier reading of
    the clock. *)
Definition heartbeats_from_clock (s : system) : Prop :=
  ∀ (a text : string),
    heartbeat_of s a = Some (Some text) →
    ∃ j, (j < ticks s)%nat ∧ text = strftime_HMS (clock s j).

(** ** Stopping a worker

    [mid_task p]: the thread is inside the execution of a task.
    [steps_to_exit p]: the number of its own statements after which a
    thread at [p] has left the loop, if the status it reads at the head
    of the loop is not "running".  [slept_ms tid n s]: the time thread
    [tid] spends asleep, at least, while it executes its next [n]
    statements. *)






(** Events that press Start for agent [a], and the number of statements
    thread [tid] executes in a list of events. *)
Definition starts (a : string) (e : event) : bool :=
  match e with
  | RunScript w => start_clicked w && bool_decide (selected_agent w = a)
  | Sched _ => false
  end.



(** ** Terminal entries among others

    A log entry is "[HH:MM:SS] " followed by its text; the terminal
    entries are those whose text starts with "Task completed
    successfully" or with "Task failed: ". *)

Fixpoint drop_chars (n : nat) (s : string) : string :=
  match n, s with
  | S n', String _ rest => drop_chars n' rest
  | _, _ => s
  end.

Fixpoint starts_with (p s : string) : bool :=
  match p with
  | EmptyString => true
  | String c p' =>
      match s with
      | String d s' => Ascii.eqb c d && starts_with p' s'
      | EmptyString => false
      end
  end.


(** An entry made of a reading of the clock and the given text. *)
Definition stamped (clk : nat → datetime) (text entry : string) : Prop :=
  ∃ j : nat, entry = "[" +:+ strftime_HMS (clk j) +:+ "] " +:+ text.






(** ** Concrete executions

    Clocks, button presses and schedules used to run the model. *)

Definition at_time (h m sec us : Z) : datetime :=
  {| year := 2024; month := 1; day := 1;
     hour := h; minute := m; second := sec; microsecond := us |}.

(** A clock that advances one second per reading from 12:00:00 (and
    stays at 12:59:59). *)
Definition noon_clock (i : nat) : datetime :=
  let n := Z.min (Z.of_nat i) 3599 in at_time 12 (n / 60) (n mod 60) 0.

Definition press_start (a : string) : widgets :=
  {| selected_agent := a; start_clicked := true; stop_clicked := false;
     task_type := "Summarize Text"; text_area := ""; file_uploader := None;
     submit_task := false |}.

Definition press_stop (a : string) : widgets :=
  {| selected_agent := a; start_clicked := false; stop_clicked := true;
     task_type := "Summarize Text"; text_area := ""; file_uploader := None;
     submit_task := false |}.

Definition submit_text (a function text : string) : widgets :=
  {| selected_agent := a; start_clicked := false; stop_clicked := false;
     task_type := function; text_area := text; file_uploader := None;
     submit_task := true |}.

Definition submit_file (a : string) (document : string) : widgets :=
  {| selected_agent := a; start_clicked := false; stop_clicked := false;
     task_type := "Translate Document"; text_area := ""; file_uploader := Some document;
     submit_task := true |}.

(** Planner is started at 12:00:00, its worker finds the queue empty and
    writes its heartbeat at 12:00:00; the next reading of the clock, the
    one a status display would take, is 12:00:00.5. *)
Definition beat_clock (i : nat) : datetime :=
  match i with
  | 0%nat | 1%nat => at_time 12 0 0 0
  | _ => at_time 12 0 0 500000
  end.

Definition planner_idling (clk : nat → datetime) : system :=
  exec [RunScript (press_start "Planner"); Sched 0; Sched 0; Sched 0] (init clk).






(** ** The display (lines 173-195)

    One expander per agent: its header, the value given to the progress
    bar and the lines of text below it. *)

Definition emoji_text (e : emoji) : string :=
  match e with
  | green_heart => "💚"
  | yellow_heart => "💛"
  | yellow_circle => "🟡"
  | red_circle => "🔴"
  end.

(** [str.upper()], for ASCII text, which the statuses are. *)
Definition upper_char (c : ascii) : ascii :=
  let n := nat_of_ascii c in
  if ((97 <=? n) && (n <=? 122))%nat then ascii_of_nat (n - 32) else c.

Fixpoint upper (s : string) : string :=
  match s with
  | String c rest => String (upper_char c) (upper rest)
  | EmptyString => EmptyString
  end.

(** [l[-n:]] for a positive [n]: the last [n] elements, all of them when
    there are fewer. *)
Definition last_entries (n : nat) (l : list string) : list string :=
  drop (length l - n) l.

Record expander := {
  header_text : string;
  progress : Q;
  text_lines : list string
}.

(** The body of the loop of line 176, for one item [(agent, status)]. *)
Definition show_agent (agent status : string) : M expander :=
  last_seen ← getitem last_heartbeat agent;
  pulse ← heartbeat_status agent;
  q ← getitem agent_queues agent;
  let queue_size := length q in
  let header_text :=
    emoji_text pulse +:+ " " +:+ agent +:+ " — " +:+ upper status
    +:+ " (Queue: " +:+ pretty queue_size +:+ ")" in
  let header_text :=
    if truthy last_seen
    then header_text +:+ " (Last heartbeat: " +:+ default "" last_seen +:+ ")"
    else header_text in
  progress ← getitem agent_progress agent;
  logs ← getitem agent_logs agent;
  mret {| header_text := header_text; progress := progress;
          text_lines := match logs with
                        | [] => ["No logs yet."]
                        | _ => last_entries 10 logs
                        end |}.

(** [agent_status.items()].  The dictionary is built over [agents] and
    the code assigns to keys it has read before only, so the keys and their
    order are those of [agents] in every state the system reaches
    ([status_keys] below). *)
Definition status_items (ss : session_state) : list (string * string) :=
  omap (λ agent, (agent,.) <$> agent_status ss !! agent) agents.

Fixpoint for_each {A B : Type} (body : A → M B) (l : list A) : M (list B) :=
  match l with
  | [] => mret []
  | x :: l' => y ← body x; ys ← for_each body l'; mret (y :: ys)
  end.

Definition display : M (list expander) :=
  items ← gets status_items;
  for_each (λ item, show_agent item.1 item.2) items.


(** ** What the logs hold

    The texts the script and the worker write after the time stamp. *)

Definition script_text (w : widgets) (text : string) : Prop :=
  text = "Agent started" ∨ text = "Agent stopped"
  ∨ text = "Task queued: " +:+ task_type w.

Definition worker_text (p : pc) (text : string) : Prop :=
  (p = AtDoneLog ∧ text = "Task completed successfully")
  ∨ ∃ e, p = AtFailLog e ∧ text = "Task failed: " +:+ e.

Definition log_text (text : string) : Prop :=
  text = "Agent started" ∨ text = "Agent stopped"
  ∨ (∃ task_type, text = "Task queued: " +:+ task_type)
  ∨ text = "Task completed successfully".

(** Tasks built by [make_task], the task a thread is executing, and the
    two statements of the [except] branch. *)
Definition made (t : task) : Prop :=
  ∃ task_type content, t = make_task task_type content.

Definition task_at (p : pc) : option task :=
  match p with
  | AtCall t _ | AtProgress t _ | AtBeat t _ | AtPause t _ => Some t
  | _ => None
  end.

Definition failing (p : pc) : bool :=
  match p with
  | AtFailLog _ | AtFailReset => true
  | _ => false
  end.

(** Every task of the system, queued or in progress, comes from
    [make_task], no thread is in the [except] branch, and the logs hold
    the four kinds of entries of a run without failure. *)
Definition only_made_tasks (s : system) : Prop :=
  (∀ a q, queue_of s a = Some q → Forall made q)
  ∧ (∀ tid th, pool s !! tid = Some th →
       failing (th_pc th) = false ∧ ∀ t, task_at (th_pc th) = Some t → made t)
  ∧ (∀ a l, logs_of s a = Some l →
       Forall (λ entry, ∃ text, stamped (clock s) text entry ∧ log_text text) l).

(** ** An agent that was never started

    No thread is bound to it, it has no heartbeat, its progress is 0 and
    its log holds nothing but submissions. *)
Definition never_started (s : system) (a : string) : Prop :=
  (∀ tid th, pool s !! tid = Some th → th_agent th ≠ a)
  ∧ heartbeat_of s a = Some None
  ∧ progress_of s a = Some 0%Q
  ∧ ∃ l, logs_of s a = Some l
         ∧ Forall (λ entry, ∃ task_type,
                     stamped (clock s) ("Task queued: " +:+ task_type) entry) l.

(** The tasks that the submissions among [evs] put on the queue of
    agent [a]: those that pass the guard of line 151. *)
Definition submitted_to (a : string) (evs : list event) : list task :=
  omap (λ e, match e with
             | RunScript w =>
                 if submit_task w && submission_accepted w
                    && bool_decide (selected_agent w = a)
                 then Some (submitted_task w) else None
             | Sched _ => None
             end) evs.

(** Every agent has an entry in the five dictionaries the display reads. *)
Definition agent_keys (s : system) : Prop :=
  ∀ a, a ∈ agents →
    is_Some (status_of s a) ∧ is_Some (heartbeat_of s a) ∧ is_Some (queue_of s a)
    ∧ is_Some (progress_of s a) ∧ is_Some (logs_of s a).

(** What the expander [x] shows of agent [a] in the state [s]: the pulse,
    the name, the status in capitals, the size of the queue and the last
    heartbeat if there is one; the progress, within the range a progress
    bar accepts; and the last ten entries of the log at most. *)
Definition shows (s : system) (a : string) (x : expander) : Prop :=
  ∃ (st word : string) (raw : option string) (q : list task) (l : list string)
    (pulse : emoji),
    status_of s a = Some st ∧ heartbeat_of s a = Some raw
    ∧ queue_of s a = Some q ∧ logs_of s a = Some l
    ∧ ((st = "idle" ∧ word = "IDLE" ∧ pulse = yellow_circle)
       ∨ (st = "running" ∧ word = "RUNNING" ∧ (raw = None → pulse = green_heart))
       ∨ (st = "stopped" ∧ word = "STOPPED" ∧ pulse = red_circle))
    ∧ header_text x
      = match raw with
        | Some text =>
            (emoji_text pulse +:+ " " +:+ a +:+ " — " +:+ word
             +:+ " (Queue: " +:+ pretty (length q) +:+ ")")
            +:+ " (Last heartbeat: " +:+ text +:+ ")"
        | None =>
            emoji_text pulse +:+ " " +:+ a +:+ " — " +:+ word
            +:+ " (Queue: " +:+ pretty (length q) +:+ ")"
        end
    ∧ progress_of s a = Some (progress x) ∧ (0 <= progress x <= 1)%Q
    ∧ ((l = [] ∧ text_lines x = ["No logs yet."])
       ∨ (l ≠ [] ∧ text_lines x `suffix_of` l
          ∧ length (text_lines x) = (length l `min` 10)%nat)).

(** ** Threads and their traces

    The threads created for an agent, and the entries of its log that
    record a start. *)
Definition is_started (entry : string) : bool :=
  String.eqb (drop_chars 11 entry) "Agent started".

Definition threads_of (s : system) (a : string) : list thread :=
  filter (λ th, th_agent th = a) (pool s).

Definition started_entries (s : system) (a : string) : list string :=
  filter (λ entry, is_started entry = true) (default [] (logs_of s a)).

(** The handle kept for each agent in [agent_threads] is that of the
    newest thread created for it, a thread that was started; an agent
    without handle has no thread. *)
Definition handles_newest (s : system) : Prop :=
  ∀ a,
    match agent_threads (session s) !! a with
    | Some tid =>
        (∃ p, pool s !! tid = Some {| th_agent := a; th_pc := p |} ∧ p ≠ Created)
        ∧ ∀ tid' th, pool s !! tid' = Some th → th_agent th = a → (tid' ≤ tid)%nat
    | None => ∀ tid th, pool s !! tid = Some th → th_agent th ≠ a
    end.

(** Along [evs], run from [s], Start is pressed for agent [a] only when
    no worker of [a] is alive. *)
Fixpoint starts_wait (a : string) (evs : list event) (s : system) : Prop :=
  match evs with
  | [] => True
  | e :: evs' =>
      (starts a e = true → active_workers s a = 0%nat)
      ∧ starts_wait a evs' (sys_step e s)
  end.


(** * Proofs *)

(** ** Text of a time and back *)

Lemma digit_val_char (d : Z) : 0 <= d <= 9 → digit_val (digit_char d) = Some d.
Proof.
  intros H.
  assert (d = 0 ∨ d = 1 ∨ d = 2 ∨ d = 3 ∨ d = 4 ∨ d = 5 ∨ d = 6 ∨ d = 7
          ∨ d = 8 ∨ d = 9) as Hd by lia.
  repeat (destruct Hd as [-> | Hd]; [reflexivity |]). subst d. reflexivity.
Qed.

Lemma read_field_pad2 (bound n : Z) (rest : string) :
  0 <= n <= bound → bound < 100 →
  read_field bound (pad2 n +:+ rest) = Some (n, rest).
Proof.
  intros Hn Hb. unfold pad2.
  change (String (digit_char (n / 10)) (String (digit_char (n mod 10)) "") +:+ rest)
    with (String (digit_char (n / 10)) (String (digit_char (n mod 10)) rest)).
  unfold read_field. rewrite !digit_val_char.
  - replace (10 * (n / 10) + n mod 10) with n by (pose proof (Z.div_mod n 10); lia).
    destruct (Z.leb_spec n bound); [done | lia].
  - pose proof (Z.mod_pos_bound n 10); lia.
  - split; [apply Z.div_pos; lia | apply Z.lt_succ_r, Z.div_lt_upper_bound; lia].
Qed.

Lemma read_colon_app (s : string) : read_colon (":" +:+ s) = Some s.
Proof. reflexivity. Qed.

Lemma strptime_strftime (t : datetime) :
  0 <= hour t < 24 → 0 <= minute t < 60 → 0 <= second t < 60 →
  strptime_HMS (strftime_HMS t) = Some (on_1900 t).
Proof.
  intros Hh Hm Hs. unfold strptime_HMS, strftime_HMS.
  rewrite read_field_pad2 by lia. cbn [mbind option_bind].
  rewrite read_colon_app. cbn [mbind option_bind].
  rewrite read_field_pad2 by lia. cbn [mbind option_bind].
  rewrite read_colon_app. cbn [mbind option_bind].
  replace (pad2 (second t)) with (pad2 (second t) +:+ "")
    by (unfold pad2; reflexivity).
  rewrite read_field_pad2 by lia. cbn [mbind option_bind String.eqb negb].
  destruct (Z.ltb_spec 59 (second t)); [lia | reflexivity].
Qed.

Lemma strftime_nonempty (t : datetime) : String.eqb (strftime_HMS t) "" = false.
Proof. reflexivity. Qed.

(** ** Liveness *)

Lemma mjoin_heartbeat (s : system) (a : string) (raw : option string) :
  heartbeat_of s a = Some raw → mjoin (last_heartbeat (session s) !! a) = raw.
Proof. unfold heartbeat_of. intros ->. reflexivity. Qed.

(** A running agent whose heartbeat was written by [strftime_HMS]: the
    elapsed time is counted from 1900-01-01, the date [strptime_HMS]
    gives to a text that has none. *)
Lemma heartbeat_status_running (s : system) (a : string) (t : datetime) :
  status_of s a = Some "running" →
  heartbeat_of s a = Some (Some (strftime_HMS t)) →
  valid_datetime t →
  heartbeat_status a s
  = Done (render (classifyLiveness "running"
            (Some (total_microseconds (clock s (ticks s)) (on_1900 t)))))
         (tick s).
Proof.
  unfold status_of. intros Hst Hhb (_ & _ & _ & Hh & Hm & Hs & _).
  unfold heartbeat_status, gets, mbind, M_bind.
  rewrite (mjoin_heartbeat _ _ _ Hhb), Hst. cbn [default from_option id truthy].
  rewrite strftime_nonempty. cbn [negb decide_rel].
  destruct (decide ("running" = "running")) as [_|]; [|done].
  rewrite strptime_strftime by assumption.
  unfold datetime_now, classifyLiveness, mret, M_ret, tick.
  destruct (decide ("running" = "stopped")) as [|_]; [done|].
  destruct (decide ("running" ≠ "running")) as [|_]; [done|].
  repeat case_match; reflexivity.
Qed.

(** On any day from 1900-01-03 on, that elapsed time exceeds two seconds
    whatever the heartbeat: a running agent with a heartbeat is shown as
    stale. *)
Lemma heartbeat_status_running_stale (s : system) (a : string) (t : datetime) :
  status_of s a = Some "running" →
  heartbeat_of s a = Some (Some (strftime_HMS t)) →
  valid_datetime t →
  valid_datetime (clock s (ticks s)) →
  693598 <= toordinal (clock s (ticks s)) →
  heartbeat_status a s = Done yellow_circle (tick s).
Proof.
  intros Hst Hhb Ht Hnow Hord.
  rewrite (heartbeat_status_running s a t) by assumption.
  f_equal. unfold classifyLiveness.
  destruct (decide ("running" = "stopped")) as [|_]; [done|].
  destruct (decide ("running" ≠ "running")) as [|_]; [done|].
  destruct Ht as (_ & _ & _ & Hh & Hm & Hs & _).
  destruct Hnow as (_ & _ & _ & Hh' & Hm' & Hs' & Hu').
  assert (2000000 < total_microseconds (clock s (ticks s)) (on_1900 t)) as Hd.
  { unfold total_microseconds, seconds_of_day.
    change (toordinal (on_1900 t)) with 693596.
    cbn [on_1900 hour minute second microsecond]. lia. }
  destruct (Z.leb_spec (total_microseconds (clock s (ticks s)) (on_1900 t)) 1000000); [lia|].
  destruct (Z.leb_spec (total_microseconds (clock s (ticks s)) (on_1900 t)) 2000000); [lia|].
  reflexivity.
Qed.



(** ** The control script *)

Ltac munfold :=
  unfold script_run, handle_start, handle_stop, handle_submit, log_now, getitem,
    gets, modify, raise, datetime_now, new_thread, start_thread,
    mbind, M_bind, mret, M_ret in *.

Ltac proj_simpl :=
  cbn [session pool clock ticks tick with_session with_pool with_status with_logs
       with_heartbeat with_threads with_queues with_progress agent_status
       agent_logs last_heartbeat agent_threads agent_queues agent_progress
       state_of] in *.






(** C7, at the failing input: an empty document uploaded for Planner is
    put on the queue and logged, although its content is empty. *)
Example empty_document_is_queued :
  length <$> queue_of (sys_step (RunScript (submit_file "Planner" "")) (init noon_clock))
                      "Planner" = Some 1%nat
  ∧ logs_of (sys_step (RunScript (submit_file "Planner" "")) (init noon_clock)) "Planner"
    = Some ["[12:00:01] Task queued: Translate Document"]
  ∧ length <$> queue_of (init noon_clock) "Planner" = Some 0%nat.
Proof. repeat split; vm_compute; reflexivity. Qed.

Lemma start_when_running (s : system) (w : widgets) :
  start_clicked w = true → stop_clicked w = false → submit_task w = false →
  status_of s (selected_agent w) = Some "running" →
  sys_step (RunScript w) s = tick s.
Proof.
  unfold status_of. intros Hstart Hstop Hsub Hst.
  unfold sys_step. munfold. rewrite Hstart, Hstop, Hsub. proj_simpl.
  rewrite Hst. reflexivity.
Qed.

Lemma start_when_not_running (s : system) (w : widgets) (status : string)
    (l : list string) :
  start_clicked w = true → stop_clicked w = false → submit_task w = false →
  status_of s (selected_agent w) = Some status → status ≠ "running" →
  logs_of s (selected_agent w) = Some l →
  sys_step (RunScript w) s
  = {| session :=
         with_threads <[selected_agent w := length (pool s)]>
           (with_logs <[selected_agent w :=
                          l ++ ["[" +:+ strftime_HMS (clock s (ticks s))
                                +:+ "] Agent started"]]>
              (with_status <[selected_agent w := "running"]> (session s)));
       pool := pool s ++ [{| th_agent := selected_agent w; th_pc := AtWhile |}];
       clock := clock s; ticks := S (ticks s) |}.
Proof.
  unfold status_of, logs_of. intros Hstart Hstop Hsub Hst Hnr Hl.
  unfold sys_step. munfold. rewrite Hstart, Hstop, Hsub. proj_simpl.
  rewrite Hst. destruct (decide (status ≠ "running")) as [_ |]; [| done].
  proj_simpl. rewrite Hl. proj_simpl.
  unfold set_pc, with_pool. proj_simpl.
  rewrite lookup_app_r, Nat.sub_diag by done. cbn [lookup list_lookup th_agent].
  rewrite insert_app_r_alt, Nat.sub_diag by done. reflexivity.
Qed.

Lemma stop_when_not_running (s : system) (w : widgets) (status : string) :
  start_clicked w = false → stop_clicked w = true → submit_task w = false →
  status_of s (selected_agent w) = Some status → status ≠ "running" →
  sys_step (RunScript w) s = tick s.
Proof.
  unfold status_of. intros Hstart Hstop Hsub Hst Hnr.
  unfold sys_step. munfold. rewrite Hstart, Hstop, Hsub. proj_simpl.
  rewrite Hst. destruct (decide (status = "running")); [done | reflexivity].
Qed.

(** C6: Start is idempotent and Stop is void unless the agent runs.  With
    [w] a press on Start for agent [a] and [w'] a press on Stop: Start on
    a running agent leaves the session and the threads alone; after Start
    twice in a row the status is running and the second Start changed
    nothing; from a status other than running the two together appended
    the one entry of the first; Stop on an agent that does not run leaves
    the session and the threads alone. *)
Theorem start_stop_idempotent (s : system) (w w' : widgets) (status : string)
    (l : list string) :
  start_clicked w = true → stop_clicked w = false → submit_task w = false →
  start_clicked w' = false → stop_clicked w' = true → submit_task w' = false →
  selected_agent w' = selected_agent w →
  status_of s (selected_agent w) = Some status →
  logs_of s (selected_agent w) = Some l →
  (status = "running" →
   session (sys_step (RunScript w) s) = session s
   ∧ pool (sys_step (RunScript w) s) = pool s)
  ∧ status_of (sys_step (RunScript w) (sys_step (RunScript w) s)) (selected_agent w)
    = Some "running"
  ∧ session (sys_step (RunScript w) (sys_step (RunScript w) s))
    = session (sys_step (RunScript w) s)
  ∧ pool (sys_step (RunScript w) (sys_step (RunScript w) s))
    = pool (sys_step (RunScript w) s)
  ∧ (status ≠ "running" →
     logs_of (sys_step (RunScript w) (sys_step (RunScript w) s)) (selected_agent w)
     = Some (l ++ ["[" +:+ strftime_HMS (clock s (ticks s)) +:+ "] Agent started"]))
  ∧ (status ≠ "running" →
     session (sys_step (RunScript w') s) = session s
     ∧ pool (sys_step (RunScript w') s) = pool s).
Proof.
  intros Hstart Hstop Hsub Hstart' Hstop' Hsub' Hsel Hst Hl.
  assert (status_of (sys_step (RunScript w) s) (selected_agent w) = Some "running")
    as Hrun.
  { destruct (decide (status = "running")) as [-> | Hnr].
    - rewrite start_when_running by done. exact Hst.
    - rewrite (start_when_not_running s w status l) by done.
      unfold status_of. proj_simpl. apply lookup_insert_eq. }
  rewrite (start_when_running (sys_step (RunScript w) s)) by done.
  split; [| split; [| split; [| split; [| split]]]].
  - intros ->. rewrite start_when_running by done. done.
  - exact Hrun.
  - reflexivity.
  - reflexivity.
  - intros Hnr. rewrite (start_when_not_running s w status l) by done.
    unfold logs_of. proj_simpl. apply lookup_insert_eq.
  - intros Hnr. rewrite <- Hsel in Hst.
    rewrite (stop_when_not_running s w' status) by done. done.
Qed.

(** C6, witness: Start pressed twice for Listener in a fresh session. *)
Lemma start_stop_idempotent_witness :
  logs_of (sys_step (RunScript (press_start "Listener"))
             (sys_step (RunScript (press_start "Listener")) (init noon_clock)))
          "Listener"
  = Some ["[12:00:00] Agent started"].
Proof.
  refine (proj1 (proj2 (proj2 (proj2 (proj2
    (start_stop_idempotent (init noon_clock) (press_start "Listener")
       (press_stop "Listener") "idle" [] _ _ _ _ _ _ _ _ _))))) _);
    try reflexivity; done.
Defined.

(** ** One statement of a worker *)

Lemma exec_app (evs evs' : list event) (s : system) :
  exec (evs ++ evs') s = exec evs' (exec evs s).
Proof. apply foldl_app. Qed.



Lemma set_pc_lookup (s : system) (tid : nat) (a : string) (p p' : pc) :
  pool s !! tid = Some {| th_agent := a; th_pc := p |} →
  pool (set_pc tid p' s) !! tid = Some {| th_agent := a; th_pc := p' |}.
Proof.
  intros H. unfold set_pc, with_pool. proj_simpl. rewrite H.
  apply list_lookup_insert_eq. eapply lookup_lt_Some, H.
Qed.

Lemma set_pc_lookup_ne (s : system) (tid tid' : nat) (p' : pc) :
  tid ≠ tid' → pool (set_pc tid p' s) !! tid' = pool s !! tid'.
Proof.
  intros H. unfold set_pc, with_pool. proj_simpl.
  destruct (pool s !! tid); [| done]. by apply list_lookup_insert_ne.
Qed.

Lemma sys_step_sched (s : system) (tid : nat) (a : string) (p : pc) :
  pool s !! tid = Some {| th_agent := a; th_pc := p |} →
  sys_step (Sched tid) s
  = match worker_step a p s with
    | Done p' s' => set_pc tid p' s'
    | Throw e s' => set_pc tid (Crashed e) s'
    end.
Proof. intros H. unfold sys_step. rewrite H. reflexivity. Qed.

(** The statements of the worker, each with the state it leaves. *)






Lemma step_get (s : system) (tid : nat) (a : string) (q : list task) :
  pool s !! tid = Some {| th_agent := a; th_pc := AtGet |} →
  queue_of s a = Some q →
  sys_step (Sched tid) s
  = match q with
    | t :: q' => set_pc tid (AtCall t 1) (with_session (with_queues <[a := q']>) s)
    | [] => set_pc tid AtIdleBeat s
    end.
Proof.
  unfold queue_of. intros H Hq. rewrite (sys_step_sched s tid a _ H).
  unfold worker_step. munfold. rewrite Hq. destruct q; reflexivity.
Qed.





Lemma session_set_pc (s : system) (tid : nat) (p : pc) :
  session (set_pc tid p s) = session s.
Proof. reflexivity. Qed.

Lemma clock_set_pc (s : system) (tid : nat) (p : pc) :
  clock (set_pc tid p s) = clock s.
Proof. reflexivity. Qed.

Lemma ticks_set_pc (s : system) (tid : nat) (p : pc) :
  ticks (set_pc tid p s) = ticks s.
Proof. reflexivity. Qed.

Ltac obs_unfold :=
  unfold status_of, logs_of, heartbeat_of, queue_of, progress_of in *;
  rewrite ?session_set_pc, ?clock_set_pc, ?ticks_set_pc in *;
  proj_simpl.

(** ** A failing task *)



(** ** Several statements in a row *)







Lemma pool_with_session (f : session_state → session_state) (s : system) :
  pool (with_session f s) = pool s.
Proof. reflexivity. Qed.

Lemma pool_tick (s : system) : pool (tick s) = pool s.
Proof. reflexivity. Qed.






(** ** Draining the queue *)






Lemma exec_cons (e : event) (evs : list event) (s : system) :
  exec (e :: evs) s = exec evs (sys_step e s).
Proof. reflexivity. Qed.

(** ** Order of the terminal entries *)

Lemma entry_text (t : datetime) (text : string) :
  drop_chars 11 ("[" +:+ strftime_HMS t +:+ "] " +:+ text) = text.
Proof. reflexivity. Qed.

















(** ** What one event may change *)

(** Case analysis on what a statement reads: a dictionary entry, a test,
    the queue, the outcome of a call. *)
Ltac exec_match :=
  match goal with
  | |- context [match ?x with Some _ => _ | None => _ end] =>
      lazymatch x with _ !! _ => destruct x eqn:? end
  | |- context [decide ?P] => destruct (decide P)
  | |- context [match ?x with [] => _ | _ :: _ => _ end] => is_var x; destruct x
  | |- context [match ?x with Returns _ => _ | Raises _ => _ end] => destruct x eqn:?
  end.

(** The effect of one statement of a worker on everything but its own
    program counter. *)
Lemma worker_step_frame (a : string) (p : pc) (s : system) :
  ∃ (p' : pc) (s' : system),
    (worker_step a p s = Done p' s'
     ∨ ∃ e, worker_step a p s = Throw e s' ∧ p' = Crashed e)
    ∧ pool s' = pool s ∧ clock s' = clock s
    ∧ agent_status (session s') = agent_status (session s)
    ∧ (ticks s ≤ ticks s')%nat
    ∧ (∀ b, is_Some (logs_of s b) → is_Some (logs_of s' b))
    ∧ (∀ b, is_Some (queue_of s b) → is_Some (queue_of s' b))
    ∧ (pc_in_range p → pc_in_range p')
    ∧ (∀ b q, progress_of s' b = Some q →
         progress_of s b = Some q
         ∨ (b = a ∧ (q = 0%Q
                     ∨ ∃ t i, p = AtProgress t i
                              ∧ q = Qmake (Z.of_nat i) (Pos.of_nat task_steps))))
    ∧ (∀ b, heartbeat_of s' b = heartbeat_of s b
            ∨ (b = a
               ∧ heartbeat_of s' b = Some (Some (strftime_HMS (clock s (ticks s))))
               ∧ ticks s' = S (ticks s))).
Proof.
  destruct p; unfold worker_step; munfold; proj_simpl; repeat (exec_match; proj_simpl);
    eexists _, _;
    (split; [first [left; reflexivity | right; eexists; split; reflexivity] |]);
    obs_unfold; unfold pc_in_range, task_steps in *;
    (split_and!; try done; try lia; intros;
     try (destruct (decide (b = a)) as [-> |];
          [rewrite ?lookup_insert_eq in * | rewrite ?lookup_insert_ne in * by done];
          simplify_eq; eauto 10)).
Qed.

Lemma set_pc_last (l : list thread) (a : string) (p : pc) :
  match (l ++ [{| th_agent := a; th_pc := Created |}]) !! length l with
  | Some th =>
      <[length l := {| th_agent := th_agent th; th_pc := p |}]>
        (l ++ [{| th_agent := a; th_pc := Created |}])
  | None => l ++ [{| th_agent := a; th_pc := Created |}]
  end = l ++ [{| th_agent := a; th_pc := p |}].
Proof.
  rewrite lookup_app_r, Nat.sub_diag by done. cbn [lookup list_lookup th_agent].
  rewrite insert_app_r_alt, Nat.sub_diag by done. reflexivity.
Qed.

(** The effect of one run of the script. *)
Lemma script_run_frame (w : widgets) (s : system) :
  agent_progress (session (sys_step (RunScript w) s)) = agent_progress (session s)
  ∧ last_heartbeat (session (sys_step (RunScript w) s)) = last_heartbeat (session s)
  ∧ clock (sys_step (RunScript w) s) = clock s
  ∧ (ticks s < ticks (sys_step (RunScript w) s))%nat
  ∧ (pool (sys_step (RunScript w) s) = pool s
     ∨ (start_clicked w = true
        ∧ pool (sys_step (RunScript w) s)
          = pool s ++ [{| th_agent := selected_agent w; th_pc := AtWhile |}]
        ∧ is_Some (status_of s (selected_agent w))))
  ∧ (∀ a, is_Some (status_of (sys_step (RunScript w) s) a) ↔ is_Some (status_of s a))
  ∧ (∀ a, is_Some (logs_of s a) → is_Some (logs_of (sys_step (RunScript w) s) a))
  ∧ (∀ a, is_Some (queue_of s a) → is_Some (queue_of (sys_step (RunScript w) s) a))
  ∧ (∀ a, status_of (sys_step (RunScript w) s) a = Some "running" →
          status_of s a = Some "running"
          ∨ (start_clicked w = true ∧ selected_agent w = a)).
Proof.
  unfold sys_step. munfold.
  destruct (start_clicked w), (stop_clicked w), (submit_task w);
    proj_simpl; repeat (exec_match; proj_simpl);
    try (destruct (submission_accepted w); proj_simpl; repeat (exec_match; proj_simpl));
    unfold set_pc, with_pool; obs_unfold; rewrite ?set_pc_last;
    (split_and!; try done; try lia; eauto using lookup_insert_is_Some';
     try solve
       [ intros b; destruct (decide (b = selected_agent w)) as [-> | Hne];
         [rewrite ?lookup_insert_eq in * | rewrite ?lookup_insert_ne in * by done];
         simplify_eq; try (split; intros); eauto ]).
Qed.

(** ** Reachable states keep the invariants *)

Lemma step_progress_in_range (i : nat) :
  (i ≤ task_steps)%nat → (0 <= Qmake (Z.of_nat i) (Pos.of_nat task_steps) <= 1)%Q.
Proof.
  intros Hi. unfold task_steps in *. change (Pos.of_nat 20) with 20%positive.
  unfold Qle. cbn [Qnum Qden]. lia.
Qed.

Lemma sys_step_sched_frame (s : system) (tid : nat) (a : string) (p : pc) :
  pool s !! tid = Some {| th_agent := a; th_pc := p |} →
  ∃ (p' : pc) (s' : system),
    sys_step (Sched tid) s = set_pc tid p' s'
    ∧ pool s' = pool s ∧ clock s' = clock s
    ∧ agent_status (session s') = agent_status (session s)
    ∧ (ticks s ≤ ticks s')%nat
    ∧ (∀ b, is_Some (logs_of s b) → is_Some (logs_of s' b))
    ∧ (∀ b, is_Some (queue_of s b) → is_Some (queue_of s' b))
    ∧ (pc_in_range p → pc_in_range p')
    ∧ (∀ b q, progress_of s' b = Some q →
         progress_of s b = Some q
         ∨ (b = a ∧ (q = 0%Q
                     ∨ ∃ t i, p = AtProgress t i
                              ∧ q = Qmake (Z.of_nat i) (Pos.of_nat task_steps))))
    ∧ (∀ b, heartbeat_of s' b = heartbeat_of s b
            ∨ (b = a
               ∧ heartbeat_of s' b = Some (Some (strftime_HMS (clock s (ticks s))))
               ∧ ticks s' = S (ticks s))).
Proof.
  intros Hpc. destruct (worker_step_frame a p s) as (p' & s' & Hres & Hrest).
  exists p', s'. split; [| exact Hrest].
  rewrite (sys_step_sched s tid a p Hpc).
  destruct Hres as [-> | (e & -> & ->)]; reflexivity.
Qed.

Lemma pool_set_pc_cases (s : system) (tid tid' : nat) (p' : pc) (th : thread) :
  pool (set_pc tid p' s) !! tid' = Some th →
  pool s !! tid' = Some th
  ∨ (tid' = tid ∧ ∃ p, pool s !! tid = Some {| th_agent := th_agent th; th_pc := p |}
                       ∧ th_pc th = p').
Proof.
  destruct (decide (tid = tid')) as [<- | Hne].
  - destruct (pool s !! tid) as [[a p] |] eqn:E.
    + rewrite (set_pc_lookup s tid a p p' E). intros [= <-]. right. split; [done |]. exists p. split; done.
    + unfold set_pc, with_pool. proj_simpl. rewrite !E. intros ?. simplify_eq.
  - rewrite set_pc_lookup_ne by done. auto.
Qed.

Lemma invariant_init (clk : nat → datetime) : invariant (init clk).
Proof.
  split; [| split; [| split]].
  - intros a p. unfold progress_of, init, init_session, for_agents, agents.
    cbn [session agent_progress fmap list_fmap list_to_map foldr fst snd].
    intros H. repeat (apply lookup_insert_Some in H as [[_ <-] | [_ H]]; [done |]).
    by rewrite lookup_empty in H.
  - intros tid th H. cbn in H. done.
  - intros a. unfold status_of, logs_of, queue_of, init, init_session, for_agents, agents.
    cbn [session agent_status agent_logs agent_queues fmap list_fmap list_to_map
         foldr fst snd].
    rewrite !lookup_insert_is_Some, !lookup_empty. intros H.
    split; (destruct H as [? | [? [? | [? [? | [? Hn]]]]]];
            [tauto .. | destruct (is_Some_None Hn)]).
  - intros tid th H. cbn in H. done.
Qed.

Lemma invariant_step (e : event) (s : system) : invariant s → invariant (sys_step e s).
Proof.
  intros (Hprog & Hrange & Hkeys & Hth). destruct e as [w | tid].
  - destruct (script_run_frame w s)
      as (Epr & _ & _ & _ & Hpool & Hst & Hlogs & Hq & _).
    split; [| split; [| split]].
    + intros a p. unfold progress_of. rewrite Epr. apply Hprog.
    + intros tid th. destruct Hpool as [-> | (_ & -> & _)]; [apply Hrange |].
      intros [H | [_ H]]%lookup_app_Some; [by eapply Hrange |].
      apply list_lookup_singleton_Some in H as [_ <-]. exact I.
    + intros a Ha. apply Hst in Ha. destruct (Hkeys a Ha). split; auto.
    + intros tid th. destruct Hpool as [-> | (_ & -> & Hsel)].
      * intros H. apply Hst. by eapply Hth.
      * intros [H | [_ H]]%lookup_app_Some; apply Hst; [by eapply Hth |].
        apply list_lookup_singleton_Some in H as [_ <-]. exact Hsel.
  - destruct (pool s !! tid) as [[a p] |] eqn:Hpc; [| by unfold sys_step; rewrite Hpc].
    destruct (sys_step_sched_frame s tid a p Hpc)
      as (p' & s' & -> & Hpool & _ & Est & _ & Hlogs & Hq & Hpcr & Hpr & _).
    split; [| split; [| split]].
    + intros b q Hb. unfold progress_of in Hb. rewrite session_set_pc in Hb.
      destruct (Hpr b q Hb) as [Hold | (-> & [-> | (t & i & -> & ->)])].
      * by eapply Hprog.
      * done.
      * apply step_progress_in_range. apply (Hrange tid _ Hpc).
    + intros tid' th [H | (-> & p0 & H & <-)]%pool_set_pc_cases.
      * rewrite Hpool in H. by eapply Hrange.
      * rewrite Hpool in H. rewrite Hpc in H. injection H as _ <-.
        apply Hpcr, (Hrange tid _ Hpc).
    + intros b. unfold status_of, logs_of, queue_of. rewrite !session_set_pc, Est.
      intros Hb. destruct (Hkeys b Hb). split; [by apply Hlogs | by apply Hq].
    + intros tid' th Hth'. unfold status_of. rewrite session_set_pc, Est.
      apply pool_set_pc_cases in Hth' as [H | (-> & p0 & H & _)];
        rewrite Hpool in H; apply (Hth _ _ H).
Qed.

Lemma invariant_exec (evs : list event) (s : system) :
  invariant s → invariant (exec evs s).
Proof.
  revert s. induction evs as [| e evs IH]; intros s H; [exact H |].
  rewrite exec_cons. apply IH, invariant_step, H.
Qed.


(** ** Heartbeats *)

Lemma clock_sys_step (e : event) (s : system) :
  clock (sys_step e s) = clock s ∧ (ticks s ≤ ticks (sys_step e s))%nat.
Proof.
  destruct e as [w | tid].
  - destruct (script_run_frame w s) as (_ & _ & Hc & Ht & _). split; [done | lia].
  - destruct (pool s !! tid) as [[a p] |] eqn:Hpc;
      [| by unfold sys_step; rewrite Hpc].
    destruct (sys_step_sched_frame s tid a p Hpc) as (p' & s' & -> & _ & Hc & _ & Ht & _).
    done.
Qed.

Lemma clock_exec (evs : list event) (s : system) : clock (exec evs s) = clock s.
Proof.
  revert s. induction evs as [| e evs IH]; intros s; [done |].
  rewrite exec_cons, IH. apply clock_sys_step.
Qed.

Lemma heartbeats_from_clock_step (e : event) (s : system) :
  heartbeats_from_clock s → heartbeats_from_clock (sys_step e s).
Proof.
  intros H a text. destruct e as [w | tid].
  - destruct (script_run_frame w s) as (_ & Ehb & Hc & Ht & _).
    unfold heartbeat_of. rewrite Ehb, Hc. intros (j & Hj & ->)%H.
    exists j. split; [lia | done].
  - destruct (pool s !! tid) as [[b p] |] eqn:Hpc;
      [| by unfold sys_step; rewrite Hpc; apply H].
    destruct (sys_step_sched_frame s tid b p Hpc)
      as (p' & s' & -> & _ & Hc & _ & Ht & _ & _ & _ & _ & Hhb).
    unfold heartbeat_of. rewrite session_set_pc, clock_set_pc, ticks_set_pc, Hc.
    destruct (Hhb a) as [Heq | (-> & Heq & Ht')]; unfold heartbeat_of in Heq; rewrite Heq.
    + intros (j & Hj & ->)%H. exists j. split; [lia | done].
    + intros [= <-]. exists (ticks s). split; [lia | done].
Qed.

Lemma heartbeats_from_clock_exec (evs : list event) (clk : nat → datetime) :
  heartbeats_from_clock (exec evs (init clk)).
Proof.
  assert (∀ s, heartbeats_from_clock s → heartbeats_from_clock (exec evs s)) as H.
  { induction evs as [| e evs IH]; intros s Hs; [exact Hs |].
    rewrite exec_cons. apply IH, heartbeats_from_clock_step, Hs. }
  apply H. intros a text.
  unfold heartbeat_of, init, init_session, for_agents, agents.
  cbn [session last_heartbeat fmap list_fmap list_to_map foldr fst snd].
  intros Hl. repeat (apply lookup_insert_Some in Hl as [[_ [=]] | [_ Hl]]).
  by rewrite lookup_empty in Hl.
Qed.




Lemma noon_clock_one_day : one_day_clock noon_clock.
Proof.
  assert (∀ i, seconds_of_day (noon_clock i) = 43200 + Z.min (Z.of_nat i) 3599) as Hsod.
  { intros i. unfold seconds_of_day, noon_clock, at_time. cbn [hour minute second].
    pose proof (Z.div_mod (Z.min (Z.of_nat i) 3599) 60). lia. }
  split; [split |].
  - intros i. unfold valid_datetime, noon_clock, at_time.
    cbn [year month day hour minute second microsecond].
    change (days_in_month 2024 1) with 31.
    pose proof (Z.mod_pos_bound (Z.min (Z.of_nat i) 3599) 60).
    assert (0 <= Z.min (Z.of_nat i) 3599 / 60 < 60)
      by (split; [apply Z.div_pos | apply Z.div_lt_upper_bound]; lia).
    lia.
  - intros i j Hij. unfold total_microseconds. rewrite !Hsod.
    change (toordinal (noon_clock j)) with (toordinal (noon_clock i)).
    unfold noon_clock, at_time. cbn [microsecond]. lia.
  - intros i j. reflexivity.
Qed.



(** ** Liveness of the reachable states *)




(** The heartbeat half a second old is shown stale as well: the text of
    the heartbeat carries no date and is read back as 1900-01-01. *)
Example fresh_heartbeat_shown_stale :
  ∃ s', heartbeat_status "Planner" (planner_idling beat_clock) = Done yellow_circle s'
        ∧ heartbeat_of (planner_idling beat_clock) "Planner" = Some (Some "12:00:00")
        ∧ clock (planner_idling beat_clock) (ticks (planner_idling beat_clock))
          = at_time 12 0 0 500000.
Proof. eexists. repeat split; vm_compute; reflexivity. Qed.

(** X1, the slip behind the table: in any state reached from a fresh
    session, on any day from 1900-01-03 on, a running agent that has a
    heartbeat is shown stale, however recent the heartbeat is.  The
    heartbeat is kept as the text of a time of day, and read back as a
    moment of 1900-01-01. *)
Theorem running_heartbeat_always_stale (clk : nat → datetime) (evs : list event)
    (a text : string) :
  (∀ i, valid_datetime (clk i)) →
  (∀ i, 693598 <= toordinal (clk i)) →
  status_of (exec evs (init clk)) a = Some "running" →
  heartbeat_of (exec evs (init clk)) a = Some (Some text) →
  heartbeat_status a (exec evs (init clk)) = Done yellow_circle (tick (exec evs (init clk))).
Proof.
  intros Hvalid Hday Hst Hhb.
  destruct (heartbeats_from_clock_exec evs clk a text Hhb) as (j & _ & ->).
  rewrite clock_exec in Hhb. cbn [init clock] in Hhb.
  apply (heartbeat_status_running_stale _ a (clk j) Hst Hhb (Hvalid j));
    rewrite clock_exec; cbn [init clock]; [apply Hvalid | apply Hday].
Qed.

(** X1, witness: Planner idling, its heartbeat half a second old. *)
Lemma running_heartbeat_always_stale_witness :
  heartbeat_status "Planner" (planner_idling beat_clock)
  = Done yellow_circle (tick (planner_idling beat_clock)).
Proof.
  apply (running_heartbeat_always_stale beat_clock
           [RunScript (press_start "Planner"); Sched 0; Sched 0; Sched 0]
           "Planner" "12:00:00").
  - intros [| [| i]]; unfold valid_datetime; cbn; lia.
  - intros [| [| i]]; vm_compute; discriminate.
  - reflexivity.
  - reflexivity.
Defined.

(** ** Stop *)


Lemma status_own_step (s : system) (tid : nat) (a : string) :
  status_of (sys_step (Sched tid) s) a = status_of s a.
Proof.
  destruct (pool s !! tid) as [[b p] |] eqn:Hpc; [| by unfold sys_step; rewrite Hpc].
  destruct (sys_step_sched_frame s tid b p Hpc) as (p' & s' & -> & _ & _ & Est & _).
  unfold status_of. rewrite session_set_pc, Est. reflexivity.
Qed.






(** ** Restarting an agent *)


(** ** Workers are not killed by a missing key *)




(** ** The queue is first in, first out *)

Lemma script_run_queue (w : widgets) (s : system) (a : string) (q : list task) :
  queue_of s a = Some q →
  queue_of (sys_step (RunScript w) s) a = Some q
  ∨ (selected_agent w = a ∧ submit_task w = true ∧ submission_accepted w = true
     ∧ queue_of (sys_step (RunScript w) s) a = Some (q ++ [submitted_task w])).
Proof.
  unfold queue_of, sys_step, submitted_task. munfold. intros Hq.
  destruct (start_clicked w), (stop_clicked w), (submit_task w);
    proj_simpl; repeat (exec_match; proj_simpl);
    try (destruct (submission_accepted w) eqn:?; proj_simpl;
         repeat (exec_match; proj_simpl));
    obs_unfold; auto;
    (destruct (decide (selected_agent w = a)) as [<- |];
     [rewrite ?lookup_insert_eq in *; simplify_eq; auto
     | rewrite ?lookup_insert_ne in * by done; auto]).
Qed.

Lemma worker_step_queue (s : system) (tid : nat) (a b : string) (p : pc)
    (q : list task) :
  pool s !! tid = Some {| th_agent := a; th_pc := p |} →
  queue_of s b = Some q →
  queue_of (sys_step (Sched tid) s) b = Some q
  ∨ (a = b ∧ p = AtGet
     ∧ ∃ t q', q = t :: q' ∧ queue_of (sys_step (Sched tid) s) b = Some q'
               ∧ pc_of (sys_step (Sched tid) s) tid = Some (AtCall t 1)).
Proof.
  intros Hpc Hq.
  assert (p ≠ AtGet ∨ a ≠ b → queue_of (sys_step (Sched tid) s) b = Some q) as Hsame.
  { intros Hne. rewrite (sys_step_sched s tid a p Hpc). unfold queue_of in *.
    destruct p; unfold worker_step; munfold; proj_simpl;
      repeat (exec_match; proj_simpl); rewrite ?session_set_pc; proj_simpl;
      try exact Hq.
    all: rewrite lookup_insert_ne; [exact Hq | intros ->; destruct Hne; done]. }
  destruct p; try (left; apply Hsame; left; discriminate).
  destruct (decide (a = b)) as [-> | Hab]; [| left; apply Hsame; right; exact Hab].
  rewrite (step_get s tid b q Hpc Hq). destruct q as [| t q']; [by left |].
  right. split; [done |]. split; [done |]. exists t, q'. split; [done |].
  unfold pc_of. rewrite (set_pc_lookup _ tid b AtGet (AtCall t 1)) by exact Hpc.
  obs_unfold. split; [apply lookup_insert_eq | done].
Qed.

(** X3: in every state and for every event, the queue of an agent is
    left as it is, or gets the task of an accepted submission at its tail, or
    loses its head to a worker of the agent, which is then about to call
    step 1 of that task. *)
Theorem queue_first_in_first_out (e : event) (s : system) (a : string)
    (q : list task) :
  queue_of s a = Some q →
  queue_of (sys_step e s) a = Some q
  ∨ (∃ w, e = RunScript w ∧ selected_agent w = a
          ∧ queue_of (sys_step e s) a = Some (q ++ [submitted_task w]))
  ∨ (∃ tid t q', e = Sched tid ∧ q = t :: q'
                 ∧ queue_of (sys_step e s) a = Some q'
                 ∧ pc_of (sys_step e s) tid = Some (AtCall t 1)).
Proof.
  intros Hq. destruct e as [w | tid].
  - destruct (script_run_queue w s a q Hq) as [H | (Hsel & _ & _ & H)]; [by left |].
    right. left. eauto.
  - destruct (pool s !! tid) as [[b p] |] eqn:Hpc;
      [| by left; unfold sys_step; rewrite Hpc].
    destruct (worker_step_queue s tid b a p q Hpc Hq)
      as [H | (_ & _ & t & q' & -> & H & Hpc')]; [by left |].
    right. right. eauto 10.
Qed.

(** X3, witness: a text submitted for Planner in a fresh session. *)
Lemma queue_first_in_first_out_witness :
  length <$> queue_of (sys_step (RunScript (submit_text "Planner" "Summarize Text" "hello"))
                         (init noon_clock)) "Planner" = Some 1%nat.
Proof.
  destruct (queue_first_in_first_out
              (RunScript (submit_text "Planner" "Summarize Text" "hello"))
              (init noon_clock) "Planner" [] eq_refl)
    as [H | [(w & _ & _ & H) | (tid & t & q' & [=] & _)]]; rewrite H; [| done].
  vm_compute in H. discriminate H.
Defined.

(** ** The logs only grow *)

Lemma session_sched (s : system) (tid : nat) (th : thread) :
  pool s !! tid = Some th →
  session (sys_step (Sched tid) s)
  = session (state_of (worker_step (th_agent th) (th_pc th) s)).
Proof.
  intros H. unfold sys_step. rewrite H.
  destruct (worker_step _ _ s); apply session_set_pc.
Qed.

(** A statement of a worker appends at most one entry, to the log of its
    own agent. *)
Lemma worker_step_logs (a : string) (p : pc) (s : system) (b : string) :
  logs_of (state_of (worker_step a p s)) b = logs_of s b
  ∨ (b = a
     ∧ ∃ l text,
         logs_of s a = Some l
         ∧ logs_of (state_of (worker_step a p s)) a
           = Some (l ++ ["[" +:+ strftime_HMS (clock s (ticks s)) +:+ "] " +:+ text])
         ∧ worker_text p text).
Proof.
  unfold worker_text.
  destruct p; unfold worker_step; munfold; proj_simpl; repeat (exec_match; proj_simpl);
    obs_unfold; try (left; reflexivity);
    (destruct (decide (b = a)) as [-> | Hne];
     [right; split; [done |]; eexists _, _; rewrite lookup_insert_eq; eauto 10
     | left; by rewrite lookup_insert_ne]).
Qed.

(** A run of the script appends to the log of the selected agent only,
    entries stamped with the readings of the clock it takes. *)
Lemma script_run_logs (w : widgets) (s : system) (b : string) (l : list string) :
  logs_of s b = Some l →
  ∃ new,
    logs_of (sys_step (RunScript w) s) b = Some (l ++ new)
    ∧ (b ≠ selected_agent w → new = [])
    ∧ Forall (λ entry, ∃ j text,
                entry = "[" +:+ strftime_HMS (clock s j) +:+ "] " +:+ text
                ∧ script_text w text) new.
Proof.
  unfold sys_step, script_text. munfold. intros Hl.
  destruct (start_clicked w), (stop_clicked w), (submit_task w);
    proj_simpl; repeat (exec_match; proj_simpl);
    try (destruct (submission_accepted w); proj_simpl; repeat (exec_match; proj_simpl)).
  all: unfold set_pc, with_pool; obs_unfold.
  all: (destruct (decide (b = selected_agent w)) as [-> | Hne];
     [rewrite ?lookup_insert_eq in *; simplify_eq
     | rewrite ?lookup_insert_ne in * by done; simplify_eq]).
  all: try (exists []; rewrite app_nil_r; split_and!; [done | done | constructor]).
  all: rewrite <- ?app_assoc; eexists; (split; [reflexivity |]); (split; [done |]);
    cbn [app]; repeat (apply Forall_cons; split; [eexists _, _; split; [reflexivity | tauto] |]);
    apply Forall_nil_2.
Qed.
Lemma logs_sys_step (e : event) (s : system) (a : string) (l : list string) :
  logs_of s a = Some l → ∃ new, logs_of (sys_step e s) a = Some (l ++ new).
Proof.
  intros Hl. destruct e as [w | tid].
  - destruct (script_run_logs w s a l Hl) as (new & H & _). eauto.
  - destruct (pool s !! tid) as [th |] eqn:Hpc.
    + unfold logs_of at 1. rewrite (session_sched s tid th Hpc).
      destruct (worker_step_logs (th_agent th) (th_pc th) s a)
        as [H | (-> & l' & text & Hl' & H & _)].
      * exists []. rewrite app_nil_r. unfold logs_of in H. by rewrite H.
      * unfold logs_of in H. rewrite H. rewrite Hl in Hl'. injection Hl' as <-. eauto.
    + exists []. unfold sys_step. by rewrite Hpc, app_nil_r.
Qed.

(** X5: logs only grow.  Whatever the state and whatever happens next (runs
    of the script, statements of workers, in any order), the log of an
    agent keeps every entry it has, in place: the later log is the earlier
    one followed by the new entries. *)
Theorem logs_append_only (evs : list event) (s : system) (a : string)
    (l : list string) :
  logs_of s a = Some l → ∃ new, logs_of (exec evs s) a = Some (l ++ new).
Proof.
  revert s l. induction evs as [| e evs IH]; intros s l Hl.
  - exists []. by rewrite app_nil_r.
  - rewrite exec_cons. destruct (logs_sys_step e s a l Hl) as (new & Hnew).
    destruct (IH _ _ Hnew) as (new' & Hnew'). exists (new ++ new').
    by rewrite app_assoc.
Qed.

(** X5, witness: Planner started, then stopped, then one statement of its worker: the entry of the start stays first. *)
Lemma logs_append_only_witness :
  ∃ new, logs_of (exec [RunScript (press_stop "Planner"); Sched 0]
                    (sys_step (RunScript (press_start "Planner")) (init noon_clock)))
                 "Planner"
         = Some (["[12:00:00] Agent started"] ++ new).
Proof.
  apply (logs_append_only [RunScript (press_stop "Planner"); Sched 0]
           (sys_step (RunScript (press_start "Planner")) (init noon_clock))
           "Planner" ["[12:00:00] Agent started"]).
  vm_compute. reflexivity.
Defined.
(** ** Tasks of a fresh session do not fail *)

Lemma worker_step_made (a : string) (p : pc) (s : system) :
  failing p = false →
  (∀ t, task_at p = Some t → made t) →
  (∀ q, queue_of s a = Some q → Forall made q) →
  ∃ p' s',
    (worker_step a p s = Done p' s' ∨ ∃ e, worker_step a p s = Throw e s' ∧ p' = Crashed e)
    ∧ failing p' = false
    ∧ (∀ t, task_at p' = Some t → made t).
Proof.
  intros Hf Ht Hq. unfold queue_of in Hq.
  destruct p; try discriminate Hf.
  all: try (destruct (Ht t eq_refl) as (ty & c & ->)).
  all: unfold worker_step; munfold; proj_simpl; repeat (exec_match; proj_simpl).
  all: eexists _, _; (split; [first [left; reflexivity | right; eexists; split; reflexivity] |]);
         (split; [done |]); cbn [task_at]; intros; simplify_eq; eauto.
  by apply (Forall_cons_1 _ _ _ (Hq _ eq_refl)).
Qed.

Lemma sys_step_sched_result (s : system) (tid : nat) (a : string) (p p' : pc)
    (s' : system) :
  pool s !! tid = Some {| th_agent := a; th_pc := p |} →
  (worker_step a p s = Done p' s' ∨ ∃ e, worker_step a p s = Throw e s' ∧ p' = Crashed e) →
  sys_step (Sched tid) s = set_pc tid p' s'.
Proof.
  intros Hpc H. rewrite (sys_step_sched s tid a p Hpc).
  destruct H as [-> | (e & -> & ->)]; reflexivity.
Qed.

(** No event adds a key to the dictionaries of the logs and of the
    queues. *)
Lemma keys_back (e : event) (s : system) (a : string) :
  (is_Some (logs_of (sys_step e s) a) → is_Some (logs_of s a))
  ∧ (is_Some (queue_of (sys_step e s) a) → is_Some (queue_of s a)).
Proof.
  destruct e as [w | tid].
  - unfold logs_of, queue_of, sys_step. munfold.
    destruct (start_clicked w), (stop_clicked w), (submit_task w);
      proj_simpl; repeat (exec_match; proj_simpl);
      try (destruct (submission_accepted w); proj_simpl; repeat (exec_match; proj_simpl));
      unfold set_pc, with_pool; obs_unfold; (split; [| try done]); try done;
      (destruct (decide (a = selected_agent w)) as [-> | Hne];
       [rewrite ?lookup_insert_eq in *; simplify_eq; eauto
       | rewrite ?lookup_insert_ne in * by done; simplify_eq; done]).
  - destruct (pool s !! tid) as [[b p] |] eqn:Hpc;
      [| by unfold sys_step; rewrite Hpc].
    unfold logs_of, queue_of. rewrite (session_sched s tid _ Hpc). cbn [th_agent th_pc].
    destruct p; unfold worker_step; munfold; proj_simpl; repeat (exec_match; proj_simpl);
      (split; [| try done]); try done;
      (destruct (decide (a = b)) as [-> | Hne];
       [rewrite ?lookup_insert_eq in *; simplify_eq; eauto
       | rewrite ?lookup_insert_ne in * by done; simplify_eq; done]).
Qed.

Lemma only_made_tasks_init (clk : nat → datetime) : only_made_tasks (init clk).
Proof.
  split; [| split].
  - intros a q. unfold queue_of, init, init_session, for_agents, agents.
    cbn [session agent_queues fmap list_fmap list_to_map foldr fst snd].
    intros H. repeat (apply lookup_insert_Some in H as [[_ <-] | [_ H]]; [constructor |]).
    by rewrite lookup_empty in H.
  - intros tid th H. cbn in H. done.
  - intros a l. unfold logs_of, init, init_session, for_agents, agents.
    cbn [session agent_logs fmap list_fmap list_to_map foldr fst snd].
    intros H. repeat (apply lookup_insert_Some in H as [[_ <-] | [_ H]]; [constructor |]).
    by rewrite lookup_empty in H.
Qed.

Lemma only_made_tasks_step (e : event) (s : system) :
  only_made_tasks s → only_made_tasks (sys_step e s).
Proof.
  intros (Hq & Hth & Hlogs).
  assert (clock (sys_step e s) = clock s) as Hclk by apply clock_sys_step.
  destruct e as [w | tid].
  - split; [| split].
    + intros a q' Hq'.
      destruct (queue_of s a) as [q |] eqn:Eq.
      * destruct (script_run_queue w s a q Eq) as [H | (_ & _ & _ & H)];
          rewrite H in Hq'; injection Hq' as <-; [by apply (Hq a) |].
        apply Forall_app. split; [by apply (Hq a) |].
        repeat constructor. unfold submitted_task, made. eauto.
      * apply mk_is_Some, (keys_back (RunScript w)) in Hq'. rewrite Eq in Hq'. by destruct Hq'.
    + intros tid th.
      destruct (script_run_frame w s) as (_ & _ & _ & _ & Hpool & _).
      destruct Hpool as [-> | (_ & -> & _)]; [apply Hth |].
      intros [H | [_ H]]%lookup_app_Some; [by eapply Hth |].
      apply list_lookup_singleton_Some in H as [_ <-]. done.
    + intros a l' Hl'. rewrite Hclk.
      destruct (logs_of s a) as [l |] eqn:El.
      * destruct (script_run_logs w s a l El) as (new & H & _ & Hnew).
        rewrite H in Hl'. injection Hl' as <-.
        apply Forall_app. split; [by apply (Hlogs a) |].
        eapply Forall_impl; [exact Hnew |]. cbn beta.
        intros entry (j & text & -> & Htext). exists text. split; [by exists j |].
        unfold log_text. destruct Htext as [-> | [-> | ->]]; eauto 10.
      * apply mk_is_Some, (keys_back (RunScript w)) in Hl'. rewrite El in Hl'. by destruct Hl'.
  - destruct (pool s !! tid) as [[a p] |] eqn:Hpc;
      [| by unfold sys_step; rewrite Hpc].
    destruct (Hth tid _ Hpc) as [Hf Ht]. cbn [th_pc] in Hf, Ht.
    destruct (worker_step_made a p s Hf Ht (Hq a)) as (p' & s' & Hres & Hf' & Ht').
    split; [| split].
    + intros b q' Hq'. destruct (queue_of s b) as [q |] eqn:Eq.
      * destruct (worker_step_queue s tid a b p q Hpc Eq)
          as [H | (_ & _ & t & q'' & -> & H & _)];
          rewrite H in Hq'; injection Hq' as <-; [by apply (Hq b) |].
        by apply (Forall_cons_1 _ _ _ (Hq b _ Eq)).
      * apply mk_is_Some, (keys_back (Sched tid)) in Hq'. rewrite Eq in Hq'. by destruct Hq'.
    + rewrite (sys_step_sched_result s tid a p p' s' Hpc Hres).
      intros tid' th [H | (-> & p0 & H & Hp')]%pool_set_pc_cases.
      * assert (pool s' = pool s) as Hpool.
        { destruct (worker_step_frame a p s) as (p1 & s1 & Hres1 & Hpool & _).
          destruct Hres as [E | (e & E & _)]; rewrite E in Hres1;
            destruct Hres1 as [[=] | (? & [=] & _)]; congruence. }
        rewrite Hpool in H. by apply (Hth tid').
      * rewrite Hp'. done.
    + intros b l' Hl'. rewrite Hclk. unfold logs_of in Hl'.
      rewrite (session_sched s tid _ Hpc) in Hl'. cbn [th_agent th_pc] in Hl'.
      destruct (worker_step_logs a p s b) as [H | (-> & l & text & El & H & Htext)];
        unfold logs_of in H; rewrite H in Hl'.
      * by apply (Hlogs b).
      * injection Hl' as <-. apply Forall_app. split; [by apply (Hlogs a) |].
        repeat constructor. exists text. split; [by eexists |].
        destruct Htext as [[_ ->] | (e & -> & _)]; [| discriminate Hf].
        unfold log_text. tauto.
Qed.

Lemma only_made_tasks_exec (evs : list event) (s : system) :
  only_made_tasks s → only_made_tasks (exec evs s).
Proof.
  revert s. induction evs as [| e evs IH]; intros s H; [exact H |].
  rewrite exec_cons. apply IH, only_made_tasks_step, H.
Qed.

(** X6: no task fails in a session that starts fresh.  The only tasks
    that reach a queue are those the submit handler builds with
    [make_task], and their calls return at every step; so, in every state
    reached from a fresh session, no worker is in the [except] branch of
    the step loop, and every entry of every log is a reading of the clock
    followed by Agent started, Agent stopped, Task queued: <function> or
    Task completed successfully - never by Task failed. *)
Theorem no_task_fails (clk : nat → datetime) (evs : list event) :
  (∀ tid th, pool (exec evs (init clk)) !! tid = Some th → failing (th_pc th) = false)
  ∧ (∀ a l entry,
       logs_of (exec evs (init clk)) a = Some l → entry ∈ l →
       (∃ text, stamped clk text entry ∧ log_text text)
       ∧ starts_with "Task failed: " (drop_chars 11 entry) = false).
Proof.
  destruct (only_made_tasks_exec evs (init clk) (only_made_tasks_init clk))
    as (_ & Hth & Hlogs).
  split; [intros tid th H; apply (Hth tid th H) |].
  intros a l entry Hl Hin.
  pose proof (Hlogs a l Hl) as Hall. rewrite clock_exec in Hall. cbn [clock init] in Hall.
  rewrite Forall_forall in Hall. destruct (Hall entry Hin) as (text & Hst & Htext).
  split; [eauto |]. destruct Hst as (j & ->). rewrite entry_text.
  destruct Htext as [-> | [-> | [(ty & ->) | ->]]]; reflexivity.
Qed.

(** ** The status of an agent *)

Ltac script_cases w :=
  destruct (start_clicked w) eqn:?, (stop_clicked w) eqn:?, (submit_task w) eqn:?;
  proj_simpl; repeat (exec_match; proj_simpl);
  try (destruct (submission_accepted w) eqn:?; proj_simpl; repeat (exec_match; proj_simpl));
  unfold set_pc, with_pool; obs_unfold; rewrite ?set_pc_last.

Ltac key_cases a b :=
  destruct (decide (a = b)) as [-> | ?];
  [rewrite ?lookup_insert_eq in * | rewrite ?lookup_insert_ne in * by done];
  simplify_eq.

(** What a run of the script does to the status of an agent. *)
Lemma script_run_status (w : widgets) (s : system) (a st st' : string) :
  status_of s a = Some st →
  status_of (sys_step (RunScript w) s) a = Some st' →
  st' = st
  ∨ (selected_agent w = a
     ∧ ((st' = "running" ∧ start_clicked w = true ∧ st ≠ "running")
        ∨ (st' = "stopped" ∧ stop_clicked w = true))).
Proof.
  unfold sys_step. munfold. intros Hst.
  script_cases w; key_cases a (selected_agent w); intros; simplify_eq; auto 10.
Qed.

(** X7: the status of an agent changes by the buttons only.  For every
    state and every event: a statement of a worker leaves every status as
    it is; a run of the script changes the status of the selected agent
    only, to running by a Start pressed when the agent was not running, or
    to stopped by a Stop. No event sets a status back to idle. *)
Theorem status_changes_only_by_buttons (e : event) (s : system) (a st st' : string) :
  status_of s a = Some st →
  status_of (sys_step e s) a = Some st' →
  st' = st
  ∨ ∃ w, e = RunScript w ∧ selected_agent w = a
         ∧ ((st' = "running" ∧ start_clicked w = true ∧ st ≠ "running")
            ∨ (st' = "stopped" ∧ stop_clicked w = true)).
Proof.
  intros Hst Hst'. destruct e as [w | tid].
  - destruct (script_run_status w s a st st' Hst Hst') as [-> | H]; [by left |].
    right. exists w. tauto.
  - rewrite status_own_step in Hst'. left. congruence.
Qed.

(** X7, witness: Start pressed for Planner in a fresh session, which takes its status from idle to running. *)
Lemma status_changes_only_by_buttons_witness :
  "running" = "idle"
  ∨ ∃ w, RunScript (press_start "Planner") = RunScript w ∧ selected_agent w = "Planner"
         ∧ (("running" = "running" ∧ start_clicked w = true ∧ "idle" ≠ "running")
            ∨ ("running" = "stopped" ∧ stop_clicked w = true)).
Proof.
  apply (status_changes_only_by_buttons (RunScript (press_start "Planner"))
           (init noon_clock) "Planner" "idle" "running"); vm_compute; reflexivity.
Defined.
(** ** Agents never started *)

(** A worker touches the entries of its own agent only. *)
Lemma worker_step_other (a b : string) (p : pc) (s : system) :
  a ≠ b →
  heartbeat_of (state_of (worker_step b p s)) a = heartbeat_of s a
  ∧ progress_of (state_of (worker_step b p s)) a = progress_of s a
  ∧ logs_of (state_of (worker_step b p s)) a = logs_of s a
  ∧ queue_of (state_of (worker_step b p s)) a = queue_of s a.
Proof.
  intros Hne.
  destruct p; unfold worker_step; munfold; proj_simpl; repeat (exec_match; proj_simpl);
    obs_unfold; rewrite ?lookup_insert_ne by done; done.
Qed.

Lemma script_run_idle (w : widgets) (s : system) (a : string) :
  status_of (sys_step (RunScript w) s) a = Some "idle" →
  (pool (sys_step (RunScript w) s) = pool s
   ∨ ∃ b, b ≠ a ∧ pool (sys_step (RunScript w) s)
                  = pool s ++ [{| th_agent := b; th_pc := AtWhile |}])
  ∧ ∀ l, logs_of s a = Some l →
      ∃ new, logs_of (sys_step (RunScript w) s) a = Some (l ++ new)
             ∧ Forall (λ entry, ∃ j, entry = "[" +:+ strftime_HMS (clock s j)
                                              +:+ "] " +:+ "Task queued: " +:+ task_type w) new.
Proof.
  unfold sys_step. munfold.
  script_cases w; key_cases a (selected_agent w); intros Hst; simplify_eq;
    (split; [first [by left | right; eexists; split; [| reflexivity]; congruence] |]);
    intros lx Hlx; simplify_eq;
    first [ exists []; rewrite app_nil_r; split; [done | constructor]
          | eexists [_]; split; [reflexivity |]; repeat constructor; eexists; reflexivity ].
Qed.

Lemma never_started_init (clk : nat → datetime) (a : string) :
  status_of (init clk) a = Some "idle" → never_started (init clk) a.
Proof.
  unfold never_started, status_of, heartbeat_of, progress_of, logs_of, init, init_session,
    for_agents, agents.
  cbn [session pool agent_status last_heartbeat agent_progress agent_logs fmap list_fmap
       list_to_map foldr fst snd].
  intros H.
  repeat (apply lookup_insert_Some in H as [[<- _] | [_ H]];
          [split_and!; [done | done | done | exists []; split; [done | constructor]] |]).
  by rewrite lookup_empty in H.
Qed.

Lemma never_started_step (e : event) (s : system) (a : string) :
  status_of s a = Some "idle" → never_started s a →
  status_of (sys_step e s) a = Some "idle" → never_started (sys_step e s) a.
Proof.
  intros Hst Hns Hst'. pose proof Hns as (Hth & Hhb & Hpr & l & Hl & Hall).
  assert (clock (sys_step e s) = clock s) as Hclk by apply clock_sys_step.
  destruct e as [w | tid].
  - destruct (script_run_frame w s) as (Epr & Ehb & _).
    destruct (script_run_idle w s a Hst') as (Hpool & Hlogs).
    split_and!.
    + intros tid th. destruct Hpool as [-> | (b & Hb & ->)]; [apply Hth |].
      intros [H | [_ H]]%lookup_app_Some; [by eapply Hth |].
      apply list_lookup_singleton_Some in H as [_ <-]. done.
    + unfold heartbeat_of. by rewrite Ehb.
    + unfold progress_of. by rewrite Epr.
    + destruct (Hlogs l Hl) as (new & Hnew & Hq). exists (l ++ new). split; [done |].
      rewrite Hclk. apply Forall_app. split; [done |].
      eapply Forall_impl; [exact Hq |]. cbn beta. intros entry (j & ->).
      exists (task_type w), j. reflexivity.
  - destruct (pool s !! tid) as [[b p] |] eqn:Hpc;
      [| by unfold sys_step; rewrite Hpc].
    clear Hns. pose proof (Hth tid _ Hpc) as Hne. cbn [th_agent] in Hne.
    destruct (worker_step_other a b p s (not_eq_sym Hne)) as (Ehb & Epr & Elogs & _).
    split_and!.
    + destruct (sys_step_sched_frame s tid b p Hpc) as (p' & s' & -> & Hpool & _).
      intros tid' th [H | (-> & p0 & H & _)]%pool_set_pc_cases; rewrite Hpool in H.
      * by apply (Hth tid').
      * apply (Hth tid _ H).
    + unfold heartbeat_of. rewrite (session_sched s tid _ Hpc). cbn [th_agent th_pc].
      exact (eq_trans Ehb Hhb).
    + unfold progress_of. rewrite (session_sched s tid _ Hpc). cbn [th_agent th_pc].
      exact (eq_trans Epr Hpr).
    + exists l. rewrite Hclk. split; [| done].
      unfold logs_of. rewrite (session_sched s tid _ Hpc). cbn [th_agent th_pc].
      exact (eq_trans Elogs Hl).
Qed.

Lemma status_values (clk : nat → datetime) (evs : list event) (a st : string) :
  status_of (exec evs (init clk)) a = Some st →
  a ∈ agents ∧ (st = "idle" ∨ st = "running" ∨ st = "stopped").
Proof.
  revert a st. induction evs as [| e evs IH] using rev_ind; intros a st.
  - unfold status_of, exec, init, init_session, for_agents, agents.
    cbn [foldl session agent_status fmap list_fmap list_to_map foldr fst snd].
    intros H. rewrite !elem_of_cons.
    repeat (apply lookup_insert_Some in H as [[<- <-] | [_ H]]; [tauto |]).
    by rewrite lookup_empty in H.
  - rewrite exec_app. cbn [exec foldl]. intros Hst'.
    destruct (status_of (exec evs (init clk)) a) as [st0 |] eqn:Hst.
    + destruct (IH a st0 Hst) as [Ha Hv]. split; [done |].
      destruct e as [w | tid].
      * destruct (script_run_status w _ a st0 st Hst Hst')
          as [-> | (_ & [(-> & _) | (-> & _)])]; tauto.
      * rewrite status_own_step in Hst'. replace st with st0 by congruence. done.
    + exfalso. destruct e as [w | tid].
      * destruct (script_run_frame w (exec evs (init clk)))
          as (_ & _ & _ & _ & _ & Hiff & _).
        apply mk_is_Some, Hiff in Hst'. rewrite Hst in Hst'. by destruct Hst'.
      * rewrite status_own_step in Hst'. congruence.
Qed.
Lemma idle_before (e : event) (s : system) (a : string) :
  status_of (sys_step e s) a = Some "idle" → status_of s a = Some "idle".
Proof.
  intros Hst'. destruct e as [w | tid]; [| by rewrite status_own_step in Hst'].
  destruct (status_of s a) as [st |] eqn:Hst.
  - destruct (script_run_status w s a st "idle" Hst Hst')
      as [<- | (_ & [([=] & _) | ([=] & _)])]. done.
  - destruct (script_run_frame w s) as (_ & _ & _ & _ & _ & Hiff & _).
    apply mk_is_Some, Hiff in Hst'. rewrite Hst in Hst'. by destruct Hst'.
Qed.

Lemma script_run_idle_queue (w : widgets) (s : system) (a : string) (q : list task) :
  status_of (sys_step (RunScript w) s) a = Some "idle" →
  queue_of s a = Some q →
  queue_of (sys_step (RunScript w) s) a
  = Some (q ++ submitted_to a [RunScript w]).
Proof.
  unfold sys_step, submitted_to, submitted_task. cbn [omap list_omap]. munfold.
  script_cases w; cbn [andb]; key_cases a (selected_agent w); intros Hst Hq; simplify_eq;
    rewrite ?bool_decide_eq_true_2 by done; rewrite ?bool_decide_eq_false_2 by done;
    cbn [omap list_omap]; rewrite ?app_nil_r; try done.
Qed.

(** X8: an agent whose status is idle has never been started.  In every
    state reached from a fresh session, an agent whose status is idle has no
    worker thread, no heartbeat and progress 0, its log holds nothing but
    Task queued entries, and its queue holds, in the order of submission,
    the task of every submission to it that passed the guard: tasks are
    accepted for an agent that does not run, and wait. *)
Theorem idle_agent_never_started (clk : nat → datetime) (evs : list event) (a : string) :
  status_of (exec evs (init clk)) a = Some "idle" →
  never_started (exec evs (init clk)) a
  ∧ queue_of (exec evs (init clk)) a = Some (submitted_to a evs).
Proof.
  induction evs as [| e evs IH] using rev_ind.
  - intros H. split; [by apply never_started_init |].
    revert H. unfold status_of, queue_of, exec, init, init_session, for_agents, agents.
    cbn [foldl session agent_status agent_queues fmap list_fmap list_to_map foldr fst snd].
    intros H.
    repeat (apply lookup_insert_Some in H as [[<- _] | [_ H]]; [reflexivity |]).
    by rewrite lookup_empty in H.
  - rewrite exec_app. cbn [exec foldl]. intros Hst'.
    pose proof (idle_before e _ a Hst') as Hst. destruct (IH Hst) as [Hns Hq].
    split; [by apply never_started_step |].
    unfold submitted_to. rewrite omap_app. fold (submitted_to a evs).
    destruct e as [w | tid].
    + apply (script_run_idle_queue w _ a _ Hst' Hq).
    + cbn [omap list_omap]. rewrite app_nil_r.
      destruct (pool (exec evs (init clk)) !! tid) as [[b p] |] eqn:Hpc;
        [| by unfold sys_step; rewrite Hpc].
      destruct Hns as (Hth & _). pose proof (Hth tid _ Hpc) as Hne. cbn [th_agent] in Hne.
      destruct (worker_step_other a b p (exec evs (init clk)) (not_eq_sym Hne))
        as (_ & _ & _ & Eq).
      unfold queue_of. rewrite (session_sched _ tid _ Hpc). cbn [th_agent th_pc].
      exact (eq_trans Eq Hq).
Qed.

(** X8, witness: a text submitted for Listener, then Planner started and one statement of its worker; Listener is idle and its queue holds the task. *)
Lemma idle_agent_never_started_witness :
  never_started (exec [RunScript (submit_text "Listener" "Summarize Text" "hello");
                       RunScript (press_start "Planner"); Sched 0] (init noon_clock))
    "Listener"
  ∧ queue_of (exec [RunScript (submit_text "Listener" "Summarize Text" "hello");
                    RunScript (press_start "Planner"); Sched 0] (init noon_clock))
      "Listener"
    = Some [make_task "Summarize Text" "hello"].
Proof.
  apply (idle_agent_never_started noon_clock
           [RunScript (submit_text "Listener" "Summarize Text" "hello");
            RunScript (press_start "Planner"); Sched 0] "Listener").
  vm_compute. reflexivity.
Defined.
(** ** The guard of the submit handler *)







(** ** The idle loop and the steps of a task *)









(** ** Live workers *)

(** A statement never brings a thread back to life. *)
Lemma worker_step_alive (a : string) (p p' : pc) (s s' : system) :
  worker_step a p s = Done p' s' → alive p' = true → alive p = true.
Proof.
  destruct p; try done; unfold worker_step; munfold; intros [= <- _]; done.
Qed.

Lemma filter_insert_length {A} (P : A → Prop) `{∀ x, Decision (P x)} (l : list A)
    (i : nat) (x y : A) :
  l !! i = Some x → (P y → P x) →
  (length (filter P (<[i := y]> l)) ≤ length (filter P l))%nat.
Proof.
  intros Hi Hyx.
  rewrite <- (take_drop_middle l i x Hi) at 2.
  rewrite insert_take_drop by (by eapply lookup_lt_Some).
  rewrite !filter_app, !filter_cons, !length_app.
  destruct (decide (P y)) as [Hy |]; destruct (decide (P x)); cbn [length]; try lia.
  tauto.
Qed.

Lemma active_workers_step (e : event) (s : system) (a : string) :
  (active_workers (sys_step e s) a
   ≤ active_workers s a + (if starts a e then 1 else 0))%nat.
Proof.
  unfold active_workers. destruct e as [w | tid].
  - destruct (script_run_frame w s) as (_ & _ & _ & _ & Hpool & _).
    destruct Hpool as [-> | (Hstart & -> & _)]; [lia |].
    rewrite filter_app, length_app. cbn [starts]. rewrite Hstart. cbn [andb].
    rewrite filter_cons, filter_nil. cbn [th_agent th_pc].
    case_bool_decide; destruct (decide _) as [[? _] |]; cbn [length]; try lia. done.
  - cbn [starts]. rewrite Nat.add_0_r.
    destruct (pool s !! tid) as [[b p] |] eqn:Hpc;
      [| by unfold sys_step; rewrite Hpc].
    destruct (worker_step_frame b p s) as (p' & s' & Hres & Hpool & _).
    rewrite (sys_step_sched_result s tid b p p' s' Hpc Hres).
    unfold set_pc, with_pool. proj_simpl. rewrite Hpool, Hpc. cbn [th_agent].
    apply (filter_insert_length _ _ _ _ _ Hpc). cbn [th_agent th_pc].
    intros [-> Hal]. split; [done |].
    destruct Hres as [Hdone | (e & _ & ->)]; [| done].
    by eapply worker_step_alive.
Qed.

(** X12: workers come from Start only.  From any state and for any
    sequence of events, the number of live workers of an agent grows by one
    per Start pressed for this agent, at most: no other event creates a
    worker, and a worker that has left its loop or died never runs
    again. *)
Theorem live_workers_bounded_by_starts (evs : list event) (s : system) (a : string) :
  (active_workers (exec evs s) a
   ≤ active_workers s a + length (filter (λ e, starts a e = true) evs))%nat.
Proof.
  revert s. induction evs as [| e evs IH]; intros s; [cbn; lia |].
  rewrite exec_cons, filter_cons. pose proof (IH (sys_step e s)) as H1.
  pose proof (active_workers_step e s a) as H2.
  destruct (starts a e); destruct (decide _); cbn [length]; try done; lia.
Qed.
(** ** The display *)

Lemma worker_step_progress_keys (a : string) (p : pc) (s : system) (b : string) :
  is_Some (progress_of s b) → is_Some (progress_of (state_of (worker_step a p s)) b).
Proof.
  destruct p; unfold worker_step; munfold; proj_simpl; repeat (exec_match; proj_simpl);
    obs_unfold; try done; intros H; apply lookup_insert_is_Some'; auto.
Qed.

Lemma agent_keys_init (clk : nat → datetime) : agent_keys (init clk).
Proof.
  intros a. unfold agents. rewrite !elem_of_cons, elem_of_nil.
  intros [-> | [-> | [-> | []]]]; split_and!; eexists; reflexivity.
Qed.

Lemma agent_keys_step (e : event) (s : system) : agent_keys s → agent_keys (sys_step e s).
Proof.
  intros H a Ha. destruct (H a Ha) as (Hst & Hhb & Hq & Hpr & Hl).
  destruct e as [w | tid].
  - destruct (script_run_frame w s) as (Epr & Ehb & _ & _ & _ & Hiff & Hlogs & Hqs & _).
    split_and!; [by apply Hiff | | by apply Hqs | | by apply Hlogs].
    + unfold heartbeat_of. by rewrite Ehb.
    + unfold progress_of. by rewrite Epr.
  - destruct (pool s !! tid) as [[b p] |] eqn:Hpc;
      [| by unfold sys_step; rewrite Hpc].
    assert (is_Some (progress_of (sys_step (Sched tid) s) a)) as Hpr'.
    { unfold progress_of. rewrite (session_sched s tid _ Hpc).
      apply (worker_step_progress_keys b p s a Hpr). }
    destruct (sys_step_sched_frame s tid b p Hpc)
      as (p' & s' & Estep & _ & _ & Est & _ & Hlogs & Hqs & _ & _ & Hhbs).
    rewrite Estep in *.
    unfold status_of, heartbeat_of, queue_of, logs_of, progress_of in *.
    rewrite !session_set_pc in *.
    split_and!; [by rewrite Est | | by apply Hqs | done | by apply Hlogs].
    destruct (Hhbs a) as [E | (_ & E & _)]; unfold heartbeat_of in E; rewrite E; done.
Qed.

Lemma agent_keys_exec (clk : nat → datetime) (evs : list event) :
  agent_keys (exec evs (init clk)).
Proof.
  assert (∀ s, agent_keys s → agent_keys (exec evs s)) as H.
  { induction evs as [| e evs IH]; intros s Hs; [exact Hs |].
    rewrite exec_cons. apply IH, agent_keys_step, Hs. }
  apply H, agent_keys_init.
Qed.

(** The keys of [agent_status] are the agents, in every state the system
    reaches. *)
Lemma status_keys (clk : nat → datetime) (evs : list event) (a : string) :
  is_Some (status_of (exec evs (init clk)) a) ↔ a ∈ agents.
Proof.
  split.
  - intros [st Hst]. apply (status_values clk evs a st Hst).
  - intros Ha. apply (agent_keys_exec clk evs a Ha).
Qed.
(** [heartbeat_status] returns, having read the clock once at most, when
    the heartbeat is a text written by [strftime_HMS]. *)
Lemma heartbeat_status_done (s : system) (a st : string) (raw : option string) :
  status_of s a = Some st →
  heartbeat_of s a = Some raw →
  (∀ text, raw = Some text → ∃ t, text = strftime_HMS t ∧ valid_datetime t) →
  ∃ pulse s',
    heartbeat_status a s = Done pulse s' ∧ (s' = s ∨ s' = tick s)
    ∧ (st = "stopped" → pulse = red_circle)
    ∧ (st ≠ "stopped" → st ≠ "running" → pulse = yellow_circle)
    ∧ (st = "running" → raw = None → pulse = green_heart).
Proof.
  intros Hst Hhb Hraw.
  destruct (decide (st = "running")) as [-> | Hnr].
  - destruct raw as [text |].
    + destruct (Hraw text eq_refl) as (t & -> & Ht).
      rewrite (heartbeat_status_running s a t Hst Hhb Ht).
      eexists _, _. split; [reflexivity |]. split; [by right |]. done.
    + exists green_heart, s. unfold heartbeat_status, gets, mbind, M_bind.
      rewrite (mjoin_heartbeat _ _ _ Hhb). unfold status_of in Hst. rewrite Hst.
      cbn [default from_option id truthy].
      destruct (decide ("running" = "running")) as [_|]; [| done].
      split_and!; try done. by left.
  - unfold heartbeat_status, gets, mbind, M_bind.
    unfold status_of in Hst. rewrite Hst. cbn [default from_option id].
    destruct (decide (st = "running")) as [| _]; [done |].
    destruct (decide (st = "stopped")) as [-> | Hns].
    + exists red_circle, s. split_and!; try done. by left.
    + exists yellow_circle, s. split_and!; try done. by left.
Qed.

(** The expander of one agent. *)
Lemma show_agent_done (s : system) (a status st : string) (raw : option string)
    (q : list task) (pr : Q) (l : list string) :
  status_of s a = Some st →
  heartbeat_of s a = Some raw →
  queue_of s a = Some q →
  progress_of s a = Some pr →
  logs_of s a = Some l →
  (∀ text, raw = Some text → ∃ t, text = strftime_HMS t ∧ valid_datetime t) →
  ∃ pulse s',
    show_agent a status s
    = Done {| header_text :=
                match raw with
                | Some text =>
                    (emoji_text pulse +:+ " " +:+ a +:+ " — " +:+ upper status
                     +:+ " (Queue: " +:+ pretty (length q) +:+ ")")
                    +:+ " (Last heartbeat: " +:+ text +:+ ")"
                | None =>
                    emoji_text pulse +:+ " " +:+ a +:+ " — " +:+ upper status
                    +:+ " (Queue: " +:+ pretty (length q) +:+ ")"
                end;
              progress := pr;
              text_lines := match l with
                            | [] => ["No logs yet."]
                            | _ => last_entries 10 l
                            end |} s'
    ∧ (s' = s ∨ s' = tick s)
    ∧ (st = "stopped" → pulse = red_circle)
    ∧ (st ≠ "stopped" → st ≠ "running" → pulse = yellow_circle)
    ∧ (st = "running" → raw = None → pulse = green_heart).
Proof.
  intros Hst Hhb Hq Hpr Hl Hraw.
  destruct (heartbeat_status_done s a st raw Hst Hhb Hraw)
    as (pulse & s' & Hpulse & Hs' & Hrest).
  exists pulse, s'. split; [| split; [exact Hs' | exact Hrest]].
  assert (session s' = session s) as Hsess by (destruct Hs' as [-> | ->]; reflexivity).
  unfold show_agent, getitem, gets, mbind, M_bind, mret, M_ret.
  unfold heartbeat_of in Hhb. unfold queue_of in Hq. unfold progress_of in Hpr.
  unfold logs_of in Hl.
  rewrite Hhb. cbv beta iota. rewrite Hpulse. cbv beta iota. rewrite Hsess, Hq.
  cbv beta iota. rewrite Hsess, Hpr. cbv beta iota. rewrite Hsess, Hl. cbv beta iota zeta.
  f_equal. f_equal.
  destruct raw as [text |]; cbn [truthy default from_option id].
  - destruct (Hraw text eq_refl) as (t & -> & _). by rewrite strftime_nonempty.
  - reflexivity.
Qed.
Lemma last_entries_suffix (n : nat) (l : list string) :
  last_entries n l `suffix_of` l ∧ length (last_entries n l) = (length l `min` n)%nat.
Proof.
  unfold last_entries. split; [apply suffix_drop |]. rewrite length_drop. lia.
Qed.

(** What the display needs of a state: the entries of the agents, their
    status one of the three, heartbeats written by [strftime_HMS] and
    progress within [0, 1]. *)
Lemma shown_agent (s0 s : system) (a : string) :
  session s = session s0 →
  a ∈ agents →
  agent_keys s0 →
  (∀ b st, status_of s0 b = Some st → st = "idle" ∨ st = "running" ∨ st = "stopped") →
  (∀ b text, heartbeat_of s0 b = Some (Some text) →
             ∃ t, text = strftime_HMS t ∧ valid_datetime t) →
  progress_in_range s0 →
  ∃ st x s',
    status_of s0 a = Some st
    ∧ show_agent a st s = Done x s' ∧ (s' = s ∨ s' = tick s) ∧ shows s0 a x.
Proof.
  intros Hsess Ha Hkeys Hvals Hparse Hrange.
  destruct (Hkeys a Ha) as ([st Hst] & [raw Hhb] & [q Hq] & [pr Hpr] & [l Hl]).
  assert (∀ text, raw = Some text → ∃ t, text = strftime_HMS t ∧ valid_datetime t) as Hraw.
  { intros text ->. by apply (Hparse a). }
  destruct (show_agent_done s a st st raw q pr l) as (pulse & s' & Hshow & Hs' & Hp1 & Hp2 & Hp3);
    try (unfold status_of, heartbeat_of, queue_of, progress_of, logs_of in *;
         rewrite Hsess; assumption).
  { exact Hraw. }
  eexists st, _, s'. split; [exact Hst |]. split; [exact Hshow |]. split; [exact Hs' |].
  exists st, (upper st), raw, q, l, pulse. cbn [header_text progress text_lines].
  split_and!; try done.
  - destruct (Hvals a st Hst) as [-> | [-> | ->]].
    + left. split_and!; [done | reflexivity | by apply Hp2].
    + right. left. split_and!; [done | reflexivity | by apply Hp3].
    + right. right. split_and!; [done | reflexivity | by apply Hp1].
  - by apply (Hrange a).
  - by apply (Hrange a).
  - destruct l as [| entry l']; [by left |]. right. split; [done |].
    apply last_entries_suffix.
Qed.

Lemma shown_agents (s0 : system) :
  agent_keys s0 →
  (∀ b st, status_of s0 b = Some st → st = "idle" ∨ st = "running" ∨ st = "stopped") →
  (∀ b text, heartbeat_of s0 b = Some (Some text) →
             ∃ t, text = strftime_HMS t ∧ valid_datetime t) →
  progress_in_range s0 →
  ∀ (names : list string) (s : system),
    session s = session s0 → pool s = pool s0 →
    (∀ a, a ∈ names → a ∈ agents) →
    ∃ shown s',
      for_each (λ item, show_agent item.1 item.2)
        (omap (λ agent, (agent,.) <$> agent_status (session s0) !! agent) names) s
      = Done shown s'
      ∧ session s' = session s0 ∧ pool s' = pool s0
      ∧ Forall2 (shows s0) names shown.
Proof.
  intros Hkeys Hvals Hparse Hrange names.
  induction names as [| a names IH]; intros s Hsess Hpool Hin.
  - exists [], s. cbn. split_and!; first [done | constructor].
  - destruct (shown_agent s0 s a Hsess (Hin a ltac:(left)) Hkeys Hvals Hparse Hrange)
      as (st & x & s1 & Hst & Hshow & Hs1 & Hx).
    destruct (IH s1) as (shown & s' & Hrest & Hsess' & Hpool' & Hall).
    + destruct Hs1 as [-> | ->]; exact Hsess.
    + destruct Hs1 as [-> | ->]; exact Hpool.
    + intros b Hb. apply Hin. by right.
    + exists (x :: shown), s'. split_and!; [| done | done | by constructor].
      cbn [omap list_omap]. unfold status_of in Hst. rewrite Hst.
      cbn [fmap option_fmap option_map for_each].
      unfold mbind at 1, M_bind at 1. cbn [fst snd]. rewrite Hshow.
      unfold mbind at 1, M_bind at 1.
      fold (omap (λ agent, (agent,.) <$> agent_status (session s0) !! agent) names).
      rewrite Hrest. reflexivity.
Qed.
Lemma reachable_display_facts (clk : nat → datetime) (evs : list event) :
  (∀ i, valid_datetime (clk i)) →
  agent_keys (exec evs (init clk))
  ∧ (∀ b st, status_of (exec evs (init clk)) b = Some st →
             st = "idle" ∨ st = "running" ∨ st = "stopped")
  ∧ (∀ b text, heartbeat_of (exec evs (init clk)) b = Some (Some text) →
               ∃ t, text = strftime_HMS t ∧ valid_datetime t)
  ∧ progress_in_range (exec evs (init clk)).
Proof.
  intros Hvalid. split_and!.
  - apply agent_keys_exec.
  - intros b st Hst. apply (status_values clk evs b st Hst).
  - intros b text Hhb.
    destruct (heartbeats_from_clock_exec evs clk b text Hhb) as (j & _ & ->).
    rewrite clock_exec. cbn [init clock]. eauto.
  - apply (invariant_exec evs (init clk) (invariant_init clk)).
Qed.

(** X13: the display never raises and changes nothing.  In every state
    reached from a fresh session (the readings of the clock being valid
    dates), the display loop completes: no key is missing and every stored
    heartbeat parses.  It leaves the session and the threads as they are,
    and shows one expander per agent, in the order Listener, Planner,
    Executor: the status in capitals with the size of the queue and the
    last heartbeat, a progress value within [0, 1], and the last ten
    entries of the log at most - No logs yet. when the log is empty. *)
Theorem display_shows_agents (clk : nat → datetime) (evs : list event) :
  (∀ i, valid_datetime (clk i)) →
  ∃ shown s',
    display (exec evs (init clk)) = Done shown s'
    ∧ session s' = session (exec evs (init clk))
    ∧ pool s' = pool (exec evs (init clk))
    ∧ Forall2 (shows (exec evs (init clk))) agents shown.
Proof.
  intros Hvalid.
  destruct (reachable_display_facts clk evs Hvalid) as (Hkeys & Hvals & Hparse & Hrange).
  destruct (shown_agents _ Hkeys Hvals Hparse Hrange agents (exec evs (init clk))
              eq_refl eq_refl ltac:(auto)) as (shown & s' & Hshown & Hrest).
  exists shown, s'. split; [| exact Hrest].
  unfold display, gets, status_items, mbind, M_bind. exact Hshown.
Qed.

Lemma noon_clock_valid (i : nat) : valid_datetime (noon_clock i).
Proof. apply noon_clock_one_day. Qed.

(** X13, witness: Planner idling with a heartbeat. *)
Lemma display_shows_agents_witness :
  ∃ shown s',
    display (planner_idling noon_clock) = Done shown s'
    ∧ session s' = session (planner_idling noon_clock)
    ∧ pool s' = pool (planner_idling noon_clock)
    ∧ Forall2 (shows (planner_idling noon_clock)) agents shown.
Proof.
  apply (display_shows_agents noon_clock
           [RunScript (press_start "Planner"); Sched 0; Sched 0; Sched 0]).
  exact noon_clock_valid.
Defined.


(** ** Threads and the entries of a start *)

Lemma is_started_entry (t : datetime) (text : string) :
  is_started ("[" +:+ strftime_HMS t +:+ "] " +:+ text) = String.eqb text "Agent started".
Proof. unfold is_started. by rewrite entry_text. Qed.

Lemma filter_started_snoc (l : list string) (t : datetime) (text : string) :
  length (filter (λ entry, is_started entry = true)
            (l ++ ["[" +:+ strftime_HMS t +:+ "] " +:+ text]))
  = (length (filter (λ entry, is_started entry = true) l)
     + if String.eqb text "Agent started" then 1 else 0)%nat.
Proof.
  rewrite filter_app, length_app, filter_cons, filter_nil, is_started_entry.
  destruct (String.eqb text "Agent started"); destruct (decide _); cbn [length]; done.
Qed.

Lemma filter_insert_same {A} (P : A → Prop) `{∀ x, Decision (P x)} (l : list A)
    (i : nat) (x y : A) :
  l !! i = Some x → (P y ↔ P x) →
  length (filter P (<[i := y]> l)) = length (filter P l).
Proof.
  intros Hi Hyx. apply Nat.le_antisymm.
  - apply (filter_insert_length P l i x y Hi). tauto.
  - rewrite <- (list_insert_id l i x Hi) at 1.
    rewrite <- (list_insert_insert_eq l i x y).
    apply (filter_insert_length P _ i y x); [| tauto].
    apply list_lookup_insert_eq. by eapply lookup_lt_Some.
Qed.

Lemma threads_started_script (w : widgets) (s : system) (a : string) :
  length (threads_of s a) = length (started_entries s a) →
  length (threads_of (sys_step (RunScript w) s) a)
  = length (started_entries (sys_step (RunScript w) s) a).
Proof.
  unfold threads_of, started_entries, sys_step. munfold.
  script_cases w; key_cases a (selected_agent w); cbn [default from_option id];
    rewrite ?filter_app, ?length_app, ?filter_cons, ?filter_nil; cbn [th_agent].
  all: try done.
  all: repeat match goal with
         | |- context [is_started ?e] =>
             let H := fresh in
             assert (is_started e = true ∨ is_started e = false) as [H | H]
               by (first [left; apply (is_started_entry _ "Agent started")
                         | right; apply (is_started_entry _ "Agent stopped")
                         | right; apply (is_started_entry _ ("Task queued: " +:+ _))]);
             rewrite H
         end.
  all: repeat (destruct (decide _); try done; try congruence).
  all: cbn [length]; intros Hlen;
    repeat match goal with
      | Hl : agent_logs _ !! _ = _ |- _ => rewrite Hl in Hlen; clear Hl
      end;
    cbn [default from_option id length] in *; lia.
Qed.

Lemma threads_started_step (e : event) (s : system) (a : string) :
  length (threads_of s a) = length (started_entries s a) →
  length (threads_of (sys_step e s) a) = length (started_entries (sys_step e s) a).
Proof.
  destruct e as [w | tid]; [apply threads_started_script |].
  destruct (pool s !! tid) as [[b p] |] eqn:Hpc; [| by unfold sys_step; rewrite Hpc].
  intros Hlen.
  assert (length (started_entries (sys_step (Sched tid) s) a) = length (started_entries s a))
    as ->.
  { unfold started_entries, logs_of at 1. rewrite (session_sched s tid _ Hpc).
    cbn [th_agent th_pc].
    destruct (worker_step_logs b p s a) as [H | (-> & l & text & Hl & H & Htext)];
      unfold logs_of in H; rewrite H; [done |].
    rewrite Hl. cbn [default from_option id]. rewrite filter_started_snoc.
    destruct Htext as [[_ ->] | (e & _ & ->)];
      [change (String.eqb "Task completed successfully" "Agent started") with false
      | change (String.eqb ("Task failed: " +:+ e) "Agent started") with false];
      apply Nat.add_0_r. }
  rewrite <- Hlen. unfold threads_of.
  destruct (sys_step_sched_frame s tid b p Hpc) as (p' & s' & -> & Hpool & _).
  unfold set_pc, with_pool. proj_simpl. rewrite Hpool, Hpc.
  apply (filter_insert_same _ _ _ _ _ Hpc). done.
Qed.

(** X15: one thread per Agent started entry.  In every state reached from
    a fresh session, the number of worker threads created for an agent is
    the number of Agent started entries in its log: each Start that passes
    the guard writes one entry and creates one thread, and nothing else
    does either. *)
Theorem one_thread_per_start (clk : nat → datetime) (evs : list event) (a : string) :
  length (threads_of (exec evs (init clk)) a)
  = length (started_entries (exec evs (init clk)) a).
Proof.
  induction evs as [| e evs IH] using rev_ind.
  - unfold threads_of, started_entries, logs_of, exec, init, init_session, for_agents,
      agents.
    cbn [foldl pool session agent_logs fmap list_fmap list_to_map foldr fst snd].
    destruct (_ !! a) as [l |] eqn:H; [| done].
    repeat (apply lookup_insert_Some in H as [[_ <-] | [_ H]]; [done |]).
    by rewrite lookup_empty in H.
  - rewrite exec_app. cbn [exec foldl]. by apply threads_started_step.
Qed.

(** ** Thread handles *)

Lemma script_run_threads (w : widgets) (s : system) :
  (pool (sys_step (RunScript w) s) = pool s
   ∧ agent_threads (session (sys_step (RunScript w) s)) = agent_threads (session s))
  ∨ (pool (sys_step (RunScript w) s)
     = pool s ++ [{| th_agent := selected_agent w; th_pc := AtWhile |}]
     ∧ agent_threads (session (sys_step (RunScript w) s))
       = <[selected_agent w := length (pool s)]> (agent_threads (session s))).
Proof.
  unfold sys_step. munfold. script_cases w; auto.
Qed.

Lemma worker_step_threads (a : string) (p : pc) (s : system) :
  agent_threads (session (state_of (worker_step a p s))) = agent_threads (session s)
  ∧ (∀ p' s', worker_step a p s = Done p' s' → p ≠ Created → p' ≠ Created).
Proof.
  destruct p; unfold worker_step; munfold; proj_simpl; repeat (exec_match; proj_simpl);
    (split; [reflexivity |]); intros p' s' [= <- _]; done.
Qed.

Lemma handles_newest_step (e : event) (s : system) :
  handles_newest s → handles_newest (sys_step e s).
Proof.
  intros H a. specialize (H a). destruct e as [w | tid].
  - destruct (script_run_threads w s) as [[-> ->] | [-> ->]]; [exact H |].
    destruct (decide (a = selected_agent w)) as [-> | Hne].
    + rewrite lookup_insert_eq. split.
      * exists AtWhile. split; [| done].
        rewrite lookup_app_r, Nat.sub_diag by done. reflexivity.
      * intros tid' th Hth _. apply lookup_lt_Some in Hth.
        rewrite length_app in Hth. cbn [length] in Hth. lia.
    + rewrite lookup_insert_ne by done.
      destruct (agent_threads (session s) !! a) as [tid |].
      * destruct H as [(p & Hp & Hc) Hnew]. split.
        -- exists p. split; [| done]. by apply lookup_app_l_Some.
        -- intros tid' th [Hth | [_ Hth]]%lookup_app_Some Ha; [by eapply Hnew |].
           apply list_lookup_singleton_Some in Hth as [_ <-]. cbn in Ha. congruence.
      * intros tid th [Hth | [_ Hth]]%lookup_app_Some; [by eapply H |].
        apply list_lookup_singleton_Some in Hth as [_ <-]. cbn. congruence.
  - destruct (pool s !! tid) as [[b p] |] eqn:Hpc; [| by unfold sys_step; rewrite Hpc].
    destruct (worker_step_threads b p s) as [Eth Hcreated].
    rewrite (session_sched s tid _ Hpc). cbn [th_agent th_pc]. rewrite Eth.
    destruct (worker_step_frame b p s) as (p' & s' & Hres & Hpool & _).
    rewrite (sys_step_sched_result s tid b p p' s' Hpc Hres).
    assert (∀ tid' th, pool (set_pc tid p' s') !! tid' = Some th →
                       ∃ p0, pool s !! tid' = Some {| th_agent := th_agent th; th_pc := p0 |})
      as Hback.
    { intros tid' [c p1] [Hth | (-> & p0 & Hth & _)]%pool_set_pc_cases;
        rewrite Hpool in Hth; eauto. }
    destruct (agent_threads (session s) !! a) as [tid0 |].
    + destruct H as [(p0 & Hp0 & Hc) Hnew]. split.
      * destruct (decide (tid = tid0)) as [-> | Hne].
        -- rewrite Hpc in Hp0. injection Hp0 as -> ->.
           exists p'. split; [apply (set_pc_lookup s' tid0 a p0); by rewrite Hpool |].
           destruct Hres as [Hdone | (e & _ & ->)]; [by eapply Hcreated | done].
        -- exists p0. split; [| done]. rewrite set_pc_lookup_ne by done. by rewrite Hpool.
      * intros tid' th Hth Ha. destruct (Hback tid' th Hth) as (p1 & Hold).
        by apply (Hnew tid' _ Hold).
    + intros tid' th Hth. destruct (Hback tid' th Hth) as (p1 & Hold).
      apply (H tid' _ Hold).
Qed.

(** X16: the thread handle of an agent is its newest worker.  In every
    state reached from a fresh session, [agent_threads] holds for an agent
    the thread of the last Start that passed the guard - a thread bound to
    this agent, started, and created after every other thread of the agent -
    and holds nothing for an agent that has no thread.  The handles of
    earlier workers are overwritten. *)
Theorem thread_handle_is_newest (clk : nat → datetime) (evs : list event) :
  handles_newest (exec evs (init clk)).
Proof.
  assert (∀ s, handles_newest s → handles_newest (exec evs s)) as H.
  { induction evs as [| e evs IH]; intros s Hs; [exact Hs |].
    rewrite exec_cons. apply IH, handles_newest_step, Hs. }
  apply H. intros a. cbn. rewrite lookup_empty. intros tid th Hth. cbn in Hth. done.
Qed.
(** ** Start and Stop against a live worker *)

(** X17: one worker per agent when Start waits for the previous worker.
    If an agent has one live worker at most, and along the events that
    follow Start is pressed for it only when none of its workers is alive
    (each has left its loop), then it still has one live worker at most. *)
Theorem one_worker_when_starts_wait (evs : list event) (s : system) (a : string) :
  (active_workers s a ≤ 1)%nat →
  starts_wait a evs s →
  (active_workers (exec evs s) a ≤ 1)%nat.
Proof.
  revert s. induction evs as [| e evs IH]; intros s Hle Hwait; [exact Hle |].
  destruct Hwait as [Hstart Hwait]. rewrite exec_cons. apply IH; [| exact Hwait].
  pose proof (active_workers_step e s a) as Hstep.
  destruct (starts a e); [rewrite (Hstart eq_refl) in Hstep |]; lia.
Qed.

(** X17, witness: Planner started, stopped, its worker leaving at its next statement, and started again. *)
Lemma one_worker_when_starts_wait_witness :
  (active_workers
     (exec [RunScript (press_start "Planner"); RunScript (press_stop "Planner");
            Sched 0; RunScript (press_start "Planner")] (init noon_clock))
     "Planner" ≤ 1)%nat.
Proof.
  apply (one_worker_when_starts_wait
           [RunScript (press_start "Planner"); RunScript (press_stop "Planner");
            Sched 0; RunScript (press_start "Planner")] (init noon_clock) "Planner").
  - vm_compute. lia.
  - cbn [starts_wait]. split_and!; try done; intros _; vm_compute; reflexivity.
Defined.


